(** * The ffaas control-plane API server (pkg/api/server.go)

    A shallow embedding of the request handlers of [Server] and of the two
    collaborators they talk to, the persistent [storage.Store] and the
    compiled-module cache [storage.ModCacher].

    The handlers are written in a small free monad over the interface calls
    they perform, so that one and the same handler text can be run against
    any implementation of the interfaces, and so that the sequence of calls
    a handler makes is an observable of its execution. *)

From Stdlib Require Import NArith Ascii String List.
From Stdlib.Strings Require Import Byte.
From stdpp Require Import base option gmap strings list fin_maps.

Local Open Scope string_scope.
Local Open Scope N_scope.

(** ** Values exchanged with the collaborators *)

(** [uuid.UUID] is a 16-byte array; it is kept as the number it encodes.
    The zero value [uuid.Nil] stands for "no deploy yet". *)
Abbreviation UUID := N (only parsing).
Definition uuid_Nil : UUID := 0.

(** A Go [error] value; the only thing the handlers and their callers can
    observe of it is its message. *)
Record error := errors_New { Error : string }.

(** A Go [(T, error)] result pair, of which exactly one side is meaningful. *)
Inductive result (T : Type) : Type :=
| Ok (x : T)
| Err (err : error).
Arguments Ok {T} x.
Arguments Err {T} err.

(** Modelled from the spec: [types.Application] is not part of server.go;
    the fields are those of section 3, under the names the handlers use. *)
Module Application.
Record t := mk {
  ID : UUID;
  Name : string;
  Environment : gmap string string;
  Endpoint : string;
  ActiveDeployID : UUID }.

(** [app.Endpoint = e] *)
Definition set_Endpoint (e : string) (app : t) : t :=
  mk (ID app) (Name app) (Environment app) e (ActiveDeployID app).

(** [app.ActiveDeployID = d] *)
Definition set_ActiveDeployID (d : UUID) (app : t) : t :=
  mk (ID app) (Name app) (Environment app) (Endpoint app) d.
End Application.

(** Modelled from the spec: [types.Deploy] is not part of server.go; the
    fields are those of section 3, [ID] under the name the handlers use. *)
Module Deploy.
Record t := mk {
  ID : UUID;
  ApplicationID : UUID;
  Payload : list byte;
  CreatedAt : N }.
End Deploy.

(** [storage.UpdateAppParams], of which the handlers fill [ActiveDeployID]
    (server.go:113, server.go:162). *)
Module UpdateAppParams.
Record t := mk { ActiveDeployID : UUID }.
End UpdateAppParams.

(** [CreateAppParams], server.go:57 *)
Module CreateAppParams.
Record t := mk {
  Name : string;
  Environment : gmap string string }.
End CreateAppParams.

(** [CreateRollbackParams], server.go:136 *)
Module CreateRollbackParams.
Record t := mk { DeployID : UUID }.
End CreateRollbackParams.

(** ** The HTTP side *)

(** [r.Body]: the bytes the client sent and, when the stream breaks before
    its end, the error a read runs into. *)
Record ReadCloser := {
  rc_data : list byte;
  rc_err : option error }.

(** [io.ReadAll]: everything up to the end of the stream, or the first error. *)
Definition io_ReadAll (b : ReadCloser) : result (list byte) :=
  match rc_err b with
  | Some err => Err err
  | None => Ok (rc_data b)
  end.

(** [*http.Request], as far as the handlers look at it. [URLParam r key] is
    [chi.URLParam(r, key)]. *)
Record Request := {
  URLParam : string -> string;
  Body : ReadCloser }.

(** The [net/http] status constants the handlers use. *)
Definition StatusOK : N := 200.
Definition StatusBadRequest : N := 400.
Definition StatusNotFound : N := 404.
Definition StatusUnprocessableEntity : N := 422.

(** The values handed to [writeJSON]. *)
Inductive JSON :=
| ErrorResponse (err : error)
| JApplication (app : Application.t)
| JDeploy (deploy : Deploy.t)
| JRollback (deploy : UUID).   (* map[string]any{"deploy": deploy.ID} *)

(** What a handler leaves in the [http.ResponseWriter]. *)
Record Response := {
  StatusCode : N;
  Payload : JSON }.

(** Library and configuration functions the handlers call. Their code is
    not part of the repository, so they are parameters of the model. *)
Record Lib := {
  uuid_Parse : string -> result UUID;
  uuid_String : UUID -> string;
  json_Decode_CreateAppParams : ReadCloser -> result CreateAppParams.t;
  json_Decode_CreateRollbackParams : ReadCloser -> result CreateRollbackParams.t;
  config_GetWasmUrl : string;
  ErrDecodeRequestBody : error }.

(** ** Interface calls and handler programs *)

(** The calls a handler can make: the methods of [storage.Store], the one
    method of [storage.ModCacher] in use, and the two constructors of
    package [types], which draw a fresh id. *)
Inductive op :=
| Store_CreateApplication (app : Application.t)
| Store_GetApplication (id : UUID)
| Store_UpdateApplication (id : UUID) (params : UpdateAppParams.t)
| Store_CreateDeploy (deploy : Deploy.t)
| Store_GetDeploy (id : UUID)
| Cache_Delete (id : UUID)
| Types_NewApplication (name : string) (env : gmap string string)
| Types_NewDeploy (app : Application.t) (blob : list byte).

(** What each call hands back. A bare [error] return is [option error]
    ([None] is [nil]). [Cache_Delete] is given an outcome although the
    handler calls it as a statement: whatever it reports is dropped. *)
Definition resp (o : op) : Type :=
  match o with
  | Store_CreateApplication _ => option error
  | Store_GetApplication _ => result Application.t
  | Store_UpdateApplication _ _ => option error
  | Store_CreateDeploy _ => option error
  | Store_GetDeploy _ => result Deploy.t
  | Cache_Delete _ => option error
  | Types_NewApplication _ _ => Application.t
  | Types_NewDeploy _ _ => Deploy.t
  end.

(** A handler is a tree of calls: each node is a call together with the
    rest of the handler for every answer the collaborator may give. *)
Inductive prog (A : Type) : Type :=
| ret (a : A)
| act (o : op) (k : resp o -> prog A).
Arguments ret {A} a.
Arguments act {A} o k.

Fixpoint bind {A B} (p : prog A) (f : A -> prog B) : prog B :=
  match p with
  | ret a => f a
  | act o k => act o (fun x => bind (k x) f)
  end.

Definition call (o : op) : prog (resp o) := act o ret.

Notation "x <- p ;; q" := (bind p (fun x => q))
  (at level 100, p at next level, right associativity).

(** One completed call, with its answer. *)
Inductive event :=
| EvCreateApplication (app : Application.t) (err : option error)
| EvGetApplication (id : UUID) (res : result Application.t)
| EvUpdateApplication (id : UUID) (params : UpdateAppParams.t) (err : option error)
| EvCreateDeploy (deploy : Deploy.t) (err : option error)
| EvGetDeploy (id : UUID) (res : result Deploy.t)
| EvCacheDelete (id : UUID) (err : option error)
| EvNewApplication (name : string) (env : gmap string string) (app : Application.t)
| EvNewDeploy (app : Application.t) (blob : list byte) (deploy : Deploy.t).

Definition event_of (o : op) : resp o -> event :=
  match o with
  | Store_CreateApplication app => EvCreateApplication app
  | Store_GetApplication id => EvGetApplication id
  | Store_UpdateApplication id params => EvUpdateApplication id params
  | Store_CreateDeploy deploy => EvCreateDeploy deploy
  | Store_GetDeploy id => EvGetDeploy id
  | Cache_Delete id => EvCacheDelete id
  | Types_NewApplication name env => EvNewApplication name env
  | Types_NewDeploy app blob => EvNewDeploy app blob
  end.

(** An implementation of the interfaces over a state [S]. *)
Definition Impl (S : Type) : Type := forall o : op, S -> resp o * S.

(** The outcome of running a handler. *)
Record Run (S A : Type) := {
  answer : A;
  final : S;
  trace : list event }.
Arguments answer {S A} _.
Arguments final {S A} _.
Arguments trace {S A} _.

(** Puts the event of a call in front of the run of what follows it. *)
Definition after {S A} (e : event) (r : Run S A) : Run S A :=
  {| answer := answer r; final := final r; trace := e :: trace r |}.

Fixpoint exec {S A} (I : Impl S) (p : prog A) (s : S) : Run S A :=
  match p with
  | ret a => {| answer := a; final := s; trace := [] |}
  | act o k =>
      let '(x, s1) := I o s in
      after (event_of o x) (exec I (k x) s1)
  end.

(** ** The handlers *)

(** [writeJSON(w, status, v)] lives in another file of the package; all the
    handlers need of it is that it writes [status] and [v] to [w]. *)
Definition writeJSON (status : N) (v : JSON) : prog Response :=
  ret {| StatusCode := status; Payload := v |}.

(** server.go:62 *)
Definition validate_message : string :=
  "name of the application should be longer than 3 and less than 40 characters".

Definition validate (p : CreateAppParams.t) : option error :=
  if (String.length (CreateAppParams.Name p) <? 3)%nat
     || (20 <? String.length (CreateAppParams.Name p))%nat
  then Some (errors_New validate_message)
  else None.

Section Handlers.
Context (lib : Lib).

(** server.go:69 *)
Definition handleCreateApp (r : Request) : prog Response :=
  match json_Decode_CreateAppParams lib (Body r) with
  | Err _ => writeJSON StatusBadRequest (ErrorResponse (ErrDecodeRequestBody lib))
  | Ok params =>
    match validate params with
    | Some err => writeJSON StatusBadRequest (ErrorResponse err)
    | None =>
      app <- call (Types_NewApplication (CreateAppParams.Name params)
                                        (CreateAppParams.Environment params)) ;;
      let app := Application.set_Endpoint
                   (config_GetWasmUrl lib ++ "/" ++ uuid_String lib (Application.ID app))
                   app in
      err <- call (Store_CreateApplication app) ;;
      match err with
      | Some err => writeJSON StatusBadRequest (ErrorResponse err)
      | None => writeJSON StatusOK (JApplication app)
      end
    end
  end.

(** server.go:94 *)
Definition handleCreateDeploy (r : Request) : prog Response :=
  match uuid_Parse lib (URLParam r "appID") with
  | Err err => writeJSON StatusBadRequest (ErrorResponse err)
  | Ok appID =>
    res <- call (Store_GetApplication appID) ;;
    match res with
    | Err err => writeJSON StatusNotFound (ErrorResponse err)
    | Ok app =>
      match io_ReadAll (Body r) with
      | Err err => writeJSON StatusNotFound (ErrorResponse err)
      | Ok b =>
        deploy <- call (Types_NewDeploy app b) ;;
        err <- call (Store_CreateDeploy deploy) ;;
        match err with
        | Some err => writeJSON StatusUnprocessableEntity (ErrorResponse err)
        | None =>
          (* Each new deploy will be the app's active deploy *)
          err <- call (Store_UpdateApplication appID
                         (UpdateAppParams.mk (Deploy.ID deploy))) ;;
          match err with
          | Some err => writeJSON StatusUnprocessableEntity (ErrorResponse err)
          | None => writeJSON StatusOK (JDeploy deploy)
          end
        end
      end
    end
  end.

(** server.go:122 *)
Definition handleGetApplication (r : Request) : prog Response :=
  match uuid_Parse lib (URLParam r "appID") with
  | Err err => writeJSON StatusBadRequest (ErrorResponse err)
  | Ok appID =>
    res <- call (Store_GetApplication appID) ;;
    match res with
    | Err err => writeJSON StatusNotFound (ErrorResponse err)
    | Ok app => writeJSON StatusOK (JApplication app)
    end
  end.

(** server.go:140 *)
Definition handleCreateRollback (r : Request) : prog Response :=
  match uuid_Parse lib (URLParam r "appID") with
  | Err err => writeJSON StatusBadRequest (ErrorResponse err)
  | Ok appID =>
    res <- call (Store_GetApplication appID) ;;
    match res with
    | Err err => writeJSON StatusBadRequest (ErrorResponse err)
    | Ok app =>
      let currentDeployID := Application.ActiveDeployID app in
      match json_Decode_CreateRollbackParams lib (Body r) with
      | Err err => writeJSON StatusBadRequest (ErrorResponse err)
      | Ok params =>
        res <- call (Store_GetDeploy (CreateRollbackParams.DeployID params)) ;;
        match res with
        | Err err => writeJSON StatusNotFound (ErrorResponse err)
        | Ok deploy =>
          let updateParams := UpdateAppParams.mk (Deploy.ID deploy) in
          err <- call (Store_UpdateApplication appID updateParams) ;;
          match err with
          | Some err => writeJSON StatusBadRequest (ErrorResponse err)
          | None =>
            _ <- call (Cache_Delete currentDeployID) ;;
            writeJSON StatusOK (JRollback (Deploy.ID deploy))
          end
        end
      end
    end
  end.
End Handlers.

(** ** The failure classes of the spec *)

(** Modelled from the spec: the taxonomy of section 7. server.go has no error
    types of its own; a caller tells the classes apart by the status a
    handler writes: 400 for out-of-policy input, 404 for a missing
    application or deploy, 422 for a write the store refused. *)
Inductive ErrorClass := ValidationError | NotFoundError | StoreError.

Definition failure_class (r : Response) : option ErrorClass :=
  if StatusCode r =? StatusBadRequest then Some ValidationError
  else if StatusCode r =? StatusNotFound then Some NotFoundError
  else if StatusCode r =? StatusUnprocessableEntity then Some StoreError
  else None.

(** ** An in-memory Store and Cache *)

(** Modelled from the spec: packages [storage] and [types] are not part of
    server.go. The state of the collaborators: the applications and deploys
    the store holds, by id; the compiled artefacts the cache holds, by
    deploy id; [faults], the schedule of generic store failures, one flag
    per store call; [entropy] and [drawn], the source of generated ids and
    how many were drawn; [now], the clock. *)
Record World := {
  apps : gmap N Application.t;
  deploys : gmap N Deploy.t;
  cache : gmap N (list byte);
  faults : list bool;
  entropy : nat -> UUID;
  drawn : nat;
  now : N }.

Definition set_apps (m : gmap N Application.t) (w : World) : World :=
  {| apps := m; deploys := deploys w; cache := cache w; faults := faults w;
     entropy := entropy w; drawn := drawn w; now := now w |}.

Definition set_deploys (m : gmap N Deploy.t) (w : World) : World :=
  {| apps := apps w; deploys := m; cache := cache w; faults := faults w;
     entropy := entropy w; drawn := drawn w; now := now w |}.

Definition set_cache (m : gmap N (list byte)) (w : World) : World :=
  {| apps := apps w; deploys := deploys w; cache := m; faults := faults w;
     entropy := entropy w; drawn := drawn w; now := now w |}.

Definition set_faults (fs : list bool) (w : World) : World :=
  {| apps := apps w; deploys := deploys w; cache := cache w; faults := fs;
     entropy := entropy w; drawn := drawn w; now := now w |}.

Definition set_drawn (n : nat) (w : World) : World :=
  {| apps := apps w; deploys := deploys w; cache := cache w; faults := faults w;
     entropy := entropy w; drawn := n; now := now w |}.

Definition ErrNotFound : error := errors_New "not found".
Definition ErrConflict : error := errors_New "already exists".
Definition ErrStore : error := errors_New "store failure".

Module MemStore.
(** Modelled from the spec: "each may fail with a generic StoreError"
    (section 6). Every store call first consults the failure schedule and
    uses up one flag of it. *)
Definition guarded {T} (fail : error -> T) (body : World -> T * World)
    (w : World) : T * World :=
  let w' := set_faults (tl (faults w)) w in
  if hd false (faults w) then (fail ErrStore, w') else body w'.

(** Modelled from the spec: CreateApplication "fails if id already present". *)
Definition CreateApplication (app : Application.t) : World -> option error * World :=
  guarded Some (fun w =>
    match apps w !! Application.ID app with
    | Some _ => (Some ErrConflict, w)
    | None => (None, set_apps (<[Application.ID app := app]> (apps w)) w)
    end).

(** Modelled from the spec: GetApplication "fails NotFoundError if absent". *)
Definition GetApplication (id : UUID) : World -> result Application.t * World :=
  guarded Err (fun w =>
    match apps w !! id with
    | Some app => (Ok app, w)
    | None => (Err ErrNotFound, w)
    end).

(** Modelled from the spec: UpdateApplication is a "partial update of
    mutable fields only"; the one field the handlers pass is
    [active_deploy_id]. An application that is not there cannot be updated. *)
Definition UpdateApplication (id : UUID) (params : UpdateAppParams.t)
    : World -> option error * World :=
  guarded Some (fun w =>
    match apps w !! id with
    | Some app =>
        (None,
         set_apps (<[id := Application.set_ActiveDeployID
                             (UpdateAppParams.ActiveDeployID params) app]> (apps w)) w)
    | None => (Some ErrNotFound, w)
    end).

(** Modelled from the spec: CreateDeploy "fails if id already present". *)
Definition CreateDeploy (deploy : Deploy.t) : World -> option error * World :=
  guarded Some (fun w =>
    match deploys w !! Deploy.ID deploy with
    | Some _ => (Some ErrConflict, w)
    | None => (None, set_deploys (<[Deploy.ID deploy := deploy]> (deploys w)) w)
    end).

(** Modelled from the spec: GetDeploy "fails NotFoundError if absent". *)
Definition GetDeploy (id : UUID) : World -> result Deploy.t * World :=
  guarded Err (fun w =>
    match deploys w !! id with
    | Some deploy => (Ok deploy, w)
    | None => (Err ErrNotFound, w)
    end).
End MemStore.

Module MemCache.
(** Modelled from the spec: Delete "evicts any cached compiled artifact for
    deploy_id; no-op if absent; never fails observably to the caller". *)
Definition Delete (id : UUID) (w : World) : option error * World :=
  (None, set_cache (delete id (cache w)) w).
End MemCache.

Module MemTypes.
(** Modelled from the spec: [types.NewApplication] is not part of
    server.go. A new application has a generated id and no active deploy;
    its endpoint is filled in by the handler. *)
Definition NewApplication (name : string) (env : gmap string string) (w : World)
    : Application.t * World :=
  (Application.mk (entropy w (drawn w)) name env EmptyString uuid_Nil,
   set_drawn (S (drawn w)) w).

(** Modelled from the spec: [types.NewDeploy] is not part of server.go. A
    new deploy has a generated id, is bound to the application it is
    created for and carries the given payload. *)
Definition NewDeploy (app : Application.t) (blob : list byte) (w : World)
    : Deploy.t * World :=
  (Deploy.mk (entropy w (drawn w)) (Application.ID app) blob (now w),
   set_drawn (S (drawn w)) w).
End MemTypes.

Definition mem : Impl World :=
  fun o =>
    match o as o' return World -> resp o' * World with
    | Store_CreateApplication app => MemStore.CreateApplication app
    | Store_GetApplication id => MemStore.GetApplication id
    | Store_UpdateApplication id params => MemStore.UpdateApplication id params
    | Store_CreateDeploy deploy => MemStore.CreateDeploy deploy
    | Store_GetDeploy id => MemStore.GetDeploy id
    | Cache_Delete id => MemCache.Delete id
    | Types_NewApplication name env => MemTypes.NewApplication name env
    | Types_NewDeploy app blob => MemTypes.NewDeploy app blob
    end.

(** The deploy an application points at, as [get(A).active_deploy_id]. *)
Definition active_deploy (w : World) (appID : UUID) : option UUID :=
  Application.ActiveDeployID <$> apps w !! appID.

(** The store call with number [n] (from 0) is hit by a generic failure. *)
Definition fault_at (w : World) (n : nat) : bool := nth n (faults w) false.

(** ** Observations on traces *)

(** The call an event records. *)
Definition op_of (e : event) : op :=
  match e with
  | EvCreateApplication app _ => Store_CreateApplication app
  | EvGetApplication id _ => Store_GetApplication id
  | EvUpdateApplication id params _ => Store_UpdateApplication id params
  | EvCreateDeploy deploy _ => Store_CreateDeploy deploy
  | EvGetDeploy id _ => Store_GetDeploy id
  | EvCacheDelete id _ => Cache_Delete id
  | EvNewApplication name env _ => Types_NewApplication name env
  | EvNewDeploy app blob _ => Types_NewDeploy app blob
  end.

Definition is_cache_op (o : op) : bool :=
  match o with
  | Cache_Delete _ => true
  | _ => false
  end.

Definition is_store_op (o : op) : bool :=
  match o with
  | Store_CreateApplication _ | Store_GetApplication _ | Store_UpdateApplication _ _
  | Store_CreateDeploy _ | Store_GetDeploy _ => true
  | _ => false
  end.

(** The calls that write to the store. *)
Definition is_store_write (o : op) : bool :=
  match o with
  | Store_CreateApplication _ | Store_UpdateApplication _ _ | Store_CreateDeploy _ => true
  | _ => false
  end.

(** The in-process constructors of package [types]. *)
Definition is_constructor (o : op) : bool :=
  match o with
  | Types_NewApplication _ _ | Types_NewDeploy _ _ => true
  | _ => false
  end.

(** [confined allowed p]: on every branch of [p], whatever the collaborators
    answer, only calls in [allowed] are made. *)
Fixpoint confined (allowed : op -> bool) {A} (p : prog A) : Prop :=
  match p with
  | ret _ => True
  | act o k => allowed o = true /\ forall x, confined allowed (k x)
  end.

(** The decimal numerals a message mentions, in order: used to read the
    bounds an error message states. *)
Definition digit (c : ascii) : option N :=
  let n := N_of_ascii c in
  if (48 <=? n) && (n <=? 57) then Some (n - 48) else None.

Fixpoint numerals_from (cur : option N) (s : string) : list N :=
  match s with
  | EmptyString => match cur with Some n => [n] | None => [] end
  | String c s' =>
      match digit c, cur with
      | Some d, Some n => numerals_from (Some (10 * n + d)) s'
      | Some d, None => numerals_from (Some d) s'
      | None, Some n => n :: numerals_from None s'
      | None, None => numerals_from None s'
      end
  end.

Definition numerals (s : string) : list N := numerals_from None s.

(** What [create_deploy] may call: the store and the constructors of
    package [types]. *)
Definition store_side (o : op) : bool := is_store_op o || is_constructor o.

(** The two versioning operations of the spec, as runs of their handlers. *)
Definition create_deploy (lib : Lib) (r : Request) (w : World) : Run World Response :=
  exec mem (handleCreateDeploy lib r) w.

Definition rollback (lib : Lib) (r : Request) (w : World) : Run World Response :=
  exec mem (handleCreateRollback lib r) w.

(** ** Test doubles

    A stand-in for the libraries, used to run the handlers on concrete
    requests: ids are written in decimal, a rollback body is the one byte
    of the target id, an application body is the bytes of its name. *)
Module Double.
Fixpoint decimal (acc : N) (s : string) : result N :=
  match s with
  | EmptyString => Ok acc
  | String c s' =>
      match digit c with
      | Some d => decimal (10 * acc + d) s'
      | None => Err (errors_New "invalid UUID format")
      end
  end.

Definition parse (s : string) : result N :=
  match s with
  | EmptyString => Err (errors_New "invalid UUID length: 0")
  | _ => decimal 0 s
  end.

Definition decode_rollback (b : ReadCloser) : result CreateRollbackParams.t :=
  match rc_err b, rc_data b with
  | None, [x] => Ok (CreateRollbackParams.mk (Byte.to_N x))
  | Some err, _ => Err err
  | None, _ => Err (errors_New "unexpected end of JSON input")
  end.

Definition decode_app (b : ReadCloser) : result CreateAppParams.t :=
  match rc_err b with
  | None => Ok (CreateAppParams.mk (string_of_list_byte (rc_data b)) ∅)
  | Some err => Err err
  end.

Definition lib : Lib :=
  {| uuid_Parse := parse;
     uuid_String := fun _ => "id";
     json_Decode_CreateAppParams := decode_app;
     json_Decode_CreateRollbackParams := decode_rollback;
     config_GetWasmUrl := "http://localhost:5000";
     ErrDecodeRequestBody := errors_New "could not decode request body" |}.

Definition request (appID : string) (body : list byte) : Request :=
  {| URLParam := fun key => if String.eqb key "appID" then appID else EmptyString;
     Body := {| rc_data := body; rc_err := None |} |}.

Definition broken_request (appID : string) : Request :=
  {| URLParam := fun key => if String.eqb key "appID" then appID else EmptyString;
     Body := {| rc_data := []; rc_err := Some (errors_New "unexpected EOF") |} |}.

Definition appA : Application.t := Application.mk 1 "alpha" ∅ "http://localhost:5000/1" 11.
Definition appB : Application.t := Application.mk 2 "beta" ∅ "http://localhost:5000/2" 20.
Definition d10 : Deploy.t := Deploy.mk 10 1 [x01] 100.
Definition d11 : Deploy.t := Deploy.mk 11 1 [x02] 101.
Definition d20 : Deploy.t := Deploy.mk 20 2 [x03] 102.

(** Two applications; [appA] has deploys 10 and 11 (active), [appB] has
    deploy 20 (active). The cache holds the two active deploys. *)
Definition world (fs : list bool) : World :=
  {| apps := <[1 := appA]> (<[2 := appB]> ∅);
     deploys := <[10 := d10]> (<[11 := d11]> (<[20 := d20]> ∅));
     cache := <[11 := [xaa]]> (<[20 := [xbb]]> ∅);
     faults := fs;
     entropy := fun n => 1000 + N.of_nat n;
     drawn := 0;
     now := 500 |}.

(** [mem] with a cache whose [Delete] reports a failure and evicts nothing. *)
Definition broken_cache : Impl World :=
  fun o =>
    match o as o' return World -> resp o' * World with
    | Cache_Delete _ => fun w => (Some (errors_New "cache unavailable"), w)
    | o' => mem o'
    end.
End Double.

(** ** Sequences of requests

    The routes of [initRouter] (server.go:37) that are served by the
    handlers above; the status and the logs route are not part of this
    development. *)
Inductive Route :=
| PostApplication      (* POST /application *)
| GetApplication       (* GET  /application/{appID} *)
| PostDeploy           (* POST /application/{appID}/deploy *)
| PostRollback.        (* POST /application/{appID}/rollback *)

Definition handler_of (lib : Lib) (route : Route) : Request -> prog Response :=
  match route with
  | PostApplication => handleCreateApp lib
  | GetApplication => handleGetApplication lib
  | PostDeploy => handleCreateDeploy lib
  | PostRollback => handleCreateRollback lib
  end.

(** The collaborators after a sequence of requests, served one after the
    other. *)
Fixpoint serve (lib : Lib) (reqs : list (Route * Request)) (w : World) : World :=
  match reqs with
  | [] => w
  | (route, r) :: rest => serve lib rest (final (exec mem (handler_of lib route r) w))
  end.

(** ** What a store can be expected to satisfy *)

(** The application points at no deploy yet, or at one among [ds]. *)
Definition live (ds : gmap N Deploy.t) (app : Application.t) : Prop :=
  Application.ActiveDeployID app = uuid_Nil
  \/ is_Some (ds !! Application.ActiveDeployID app).

(** Every record is filed under its own id. *)
Definition well_keyed (w : World) : Prop :=
  map_Forall (fun id app => Application.ID app = id) (apps w)
  /\ map_Forall (fun id deploy => Deploy.ID deploy = id) (deploys w).

(** No application points at a deploy the store does not hold. *)
Definition pointers_live (w : World) : Prop :=
  map_Forall (fun _ app => live (deploys w) app) (apps w).

Definition store_consistent (w : World) : Prop :=
  well_keyed w /\ pointers_live w.

(** Two application records that differ at most in the active deploy. *)
Definition same_identity (a b : Application.t) : Prop :=
  Application.ID a = Application.ID b
  /\ Application.Name a = Application.Name b
  /\ Application.Environment a = Application.Environment b
  /\ Application.Endpoint a = Application.Endpoint b.

(** [w'] holds everything [w] holds: the same deploys and maybe more, the
    same applications, up to their active deploy, and maybe more. *)
Definition extends (w w' : World) : Prop :=
  deploys w ⊆ deploys w'
  /\ forall (id : UUID) (app : Application.t),
       apps w !! id = Some app ->
       exists app' : Application.t,
         apps w' !! id = Some app' /\ same_identity app app'.

(** The deploy an application points at, when it points at one and [ds]
    holds it, is bound to that application. *)
Definition owned (ds : gmap N Deploy.t) (app : Application.t) : Prop :=
  Application.ActiveDeployID app <> uuid_Nil ->
  forall deploy : Deploy.t,
    ds !! Application.ActiveDeployID app = Some deploy ->
    Deploy.ApplicationID deploy = Application.ID app.

Definition pointers_owned (w : World) : Prop :=
  map_Forall (fun _ app => owned (deploys w) app) (apps w).

Definition is_rollback (route : Route) : bool :=
  match route with
  | PostRollback => true
  | _ => false
  end.

(** ** Proof tools *)

(** Walks down a handler tree, one answer of a collaborator at a time. *)
Ltac walk_tree :=
  cbn;
  repeat match goal with
         | |- True => exact I
         | |- _ = true /\ _ => split; [reflexivity | intros ?; cbn]
         | |- context [match ?x with _ => _ end] => destruct x; cbn
         end.

(** Runs a handler against an arbitrary implementation [I], splitting on
    every answer it gives. *)
Ltac run_any I :=
  cbn;
  repeat match goal with
         | |- context [I ?o ?s] =>
             let x := fresh "x" in
             let s' := fresh "s" in
             destruct (I o s) as [x s']; cbn in x; cbn
         | |- context [match ?x with _ => _ end] => destruct x; cbn
         end.

(** Performs the next call of a run against [mem]. *)
Ltac mem_call :=
  cbn [exec bind call mem];
  unfold MemStore.CreateApplication, MemStore.GetApplication,
    MemStore.UpdateApplication, MemStore.CreateDeploy, MemStore.GetDeploy,
    MemCache.Delete, MemTypes.NewApplication, MemTypes.NewDeploy,
    MemStore.guarded;
  cbn [apps deploys cache faults entropy drawn now
       set_apps set_deploys set_cache set_faults set_drawn].

(** Runs a handler against [mem] to the end, using what the context knows
    about the request and the store and splitting on the rest. *)
Ltac run_mem :=
  repeat (mem_call;
          match goal with
          | H : ?x = _ |- context [match ?x with _ => _ end] => rewrite H
          | H : ?x = _ |- context [if ?x then _ else _] => rewrite H
          | |- context [if hd false ?l then _ else _] =>
              destruct (hd false l) eqn:?
          | |- context [match ?m !! ?k with _ => _ end] =>
              destruct (m !! k) eqn:?
          | |- context [match ?x with _ => _ end] => destruct x eqn:?
          end).

(** Performs the last call of a run and reads off its outcome. *)
Ltac at_end :=
  mem_call;
  cbn [exec writeJSON after answer final trace StatusCode Payload
       apps deploys cache faults set_apps set_deploys set_cache set_faults
       set_drawn event_of].

(** Splits a hypothesis [In e tr] over a trace that has been computed. *)
Ltac pick_event H :=
  cbn [In after trace exec writeJSON event_of] in H;
  repeat (destruct H as [H | H]; try discriminate H);
  try contradiction.

(** Discards a branch of a run whose answer is not the one assumed. *)
Ltac wrong_answer H :=
  cbn [exec writeJSON after answer StatusCode Payload] in H;
  first [discriminate H | (injection H; intros; discriminate)].

(** Reads a trace hypothesis at the end of a run against any implementation. *)
Ltac trace_cases H :=
  cbn in H;
  repeat (destruct H as [H | H]; try discriminate H);
  try contradiction.

(** * Properties *)

(** ** Running a handler, in general *)

Lemma op_of_event_of (o : op) (x : resp o) : op_of (event_of o x) = o.
Proof. destruct o; reflexivity. Qed.

Lemma exec_act {S A} (I : Impl S) (o : op) (k : resp o -> prog A) (s : S) :
  exec I (act o k) s
  = after (event_of o (I o s).1) (exec I (k (I o s).1) (I o s).2).
Proof. cbn [exec]. destruct (I o s); reflexivity. Qed.

(** A confined handler leaves only allowed calls in its trace. *)
Lemma confined_trace {S A} (allowed : op -> bool) (I : Impl S) (p : prog A) :
  confined allowed p ->
  forall s, forallb (fun e => allowed (op_of e)) (trace (exec I p s)) = true.
Proof.
  induction p as [a | o k IH]; intros Hc s.
  - reflexivity.
  - destruct Hc as [Ho Hk]. rewrite exec_act. cbn [after trace forallb].
    rewrite op_of_event_of, Ho. cbn. apply IH, Hk.
Qed.

(** ** The in-memory collaborators *)

Section MemFacts.
Context {T : Type} (fail : error -> T) (body : World -> T * World).

Lemma guarded_fault (w : World) :
  hd false (faults w) = true ->
  MemStore.guarded fail body w = (fail ErrStore, set_faults (tl (faults w)) w).
Proof. unfold MemStore.guarded. intros ->. reflexivity. Qed.

Lemma guarded_pass (w : World) :
  hd false (faults w) = false ->
  MemStore.guarded fail body w = body (set_faults (tl (faults w)) w).
Proof. unfold MemStore.guarded. intros ->. reflexivity. Qed.
End MemFacts.

Lemma fault_at_0 (w : World) : fault_at w 0 = hd false (faults w).
Proof. unfold fault_at. destruct (faults w); reflexivity. Qed.

Lemma fault_at_S (w : World) (n : nat) :
  fault_at (set_faults (tl (faults w)) w) n = fault_at w (S n).
Proof. unfold fault_at. cbn. destruct (faults w), n; reflexivity. Qed.

(** Only [Cache_Delete] changes the cache. *)
Lemma mem_cache (o : op) (w : World) :
  is_cache_op o = false -> cache (mem o w).2 = cache w.
Proof.
  destruct o; cbn; try discriminate; intros _;
    unfold MemStore.CreateApplication, MemStore.GetApplication,
      MemStore.UpdateApplication, MemStore.CreateDeploy, MemStore.GetDeploy,
      MemStore.guarded;
    repeat case_match; reflexivity.
Qed.

(** Only the writing calls of the store change what it holds. *)
Lemma mem_store (o : op) (w : World) :
  is_store_write o = false ->
  apps (mem o w).2 = apps w /\ deploys (mem o w).2 = deploys w.
Proof.
  destruct o; cbn; try discriminate; intros _;
    unfold MemStore.GetApplication, MemStore.GetDeploy, MemStore.guarded;
    repeat case_match; split; reflexivity.
Qed.

Lemma confined_cache {A} (p : prog A) :
  confined (fun o => negb (is_cache_op o)) p ->
  forall w, cache (final (exec mem p w)) = cache w.
Proof.
  induction p as [a | o k IH]; intros Hc w.
  - reflexivity.
  - destruct Hc as [Ho Hk]. rewrite exec_act. cbn [after final].
    rewrite IH by apply Hk. apply mem_cache.
    destruct (is_cache_op o); [discriminate | reflexivity].
Qed.

Lemma confined_store {A} (p : prog A) :
  confined (fun o => negb (is_store_write o)) p ->
  forall w, apps (final (exec mem p w)) = apps w
         /\ deploys (final (exec mem p w)) = deploys w.
Proof.
  induction p as [a | o k IH]; intros Hc w.
  - split; reflexivity.
  - destruct Hc as [Ho Hk]. rewrite exec_act. cbn [after final].
    destruct (IH (mem o w).1 (Hk _) (mem o w).2) as [-> ->].
    apply mem_store. destruct (is_store_write o); [discriminate | reflexivity].
Qed.

Lemma confined_weaken {A} (allowed allowed' : op -> bool) (p : prog A) :
  (forall o, allowed o = true -> allowed' o = true) ->
  confined allowed p -> confined allowed' p.
Proof.
  intros Hsub. induction p as [a | o k IH]; cbn; [trivial |].
  intros [Ho Hk]. split; [apply Hsub, Ho | intros x; apply IH, Hk].
Qed.

(** ** The handlers, call by call *)

Lemma store_side_not_cache (o : op) :
  store_side o = true -> negb (is_cache_op o) = true.
Proof. destruct o; cbn; congruence. Qed.

Lemma handleCreateDeploy_confined (lib : Lib) (r : Request) :
  confined store_side (handleCreateDeploy lib r).
Proof. unfold handleCreateDeploy. walk_tree. Qed.

(** C8: [handleCreateDeploy] never calls the cache. On every branch of the
    handler the calls are store calls or the deploy constructor; so the
    trace of any run, against any implementation of the interfaces, holds
    no cache event, and against the in-memory collaborators the cache is
    what it was. *)
Theorem create_deploy_never_touches_cache (lib : Lib) (r : Request) :
  confined store_side (handleCreateDeploy lib r)
  /\ (forall (S : Type) (I : Impl S) (s : S),
        forallb (fun e => store_side (op_of e))
                (trace (exec I (handleCreateDeploy lib r) s)) = true
        /\ forallb (fun e => negb (is_cache_op (op_of e)))
                   (trace (exec I (handleCreateDeploy lib r) s)) = true)
  /\ (forall w : World,
        cache (final (exec mem (handleCreateDeploy lib r) w)) = cache w).
Proof.
  pose proof (handleCreateDeploy_confined lib r) as Hc.
  assert (confined (fun o => negb (is_cache_op o)) (handleCreateDeploy lib r)) as Hn
    by (eapply confined_weaken; [apply store_side_not_cache | exact Hc]).
  split; [exact Hc |]. split.
  - intros S I s. split.
    + apply confined_trace, Hc.
    + apply (confined_trace (fun o => negb (is_cache_op o))), Hn.
  - apply confined_cache, Hn.
Qed.

(** C9: once the store has accepted the pointer update, the rollback
    answers 200 with the id it activated, whatever the cache's [Delete]
    reports: the eviction is the last call and its outcome is dropped. *)
Theorem rollback_ignores_cache_outcome {S : Type} (I : Impl S) (lib : Lib)
    (r : Request) (s : S) (appID : UUID) (params : UpdateAppParams.t) :
  In (EvUpdateApplication appID params None)
     (trace (exec I (handleCreateRollback lib r) s)) ->
  answer (exec I (handleCreateRollback lib r) s)
    = {| StatusCode := StatusOK;
         Payload := JRollback (UpdateAppParams.ActiveDeployID params) |}
  /\ failure_class (answer (exec I (handleCreateRollback lib r) s)) = None
  /\ exists (before : list event) (current : UUID) (outcome : option error),
       trace (exec I (handleCreateRollback lib r) s)
         = (before ++ [EvUpdateApplication appID params None;
                       EvCacheDelete current outcome])%list.
Proof.
  unfold handleCreateRollback. run_any I; intros H;
    repeat (destruct H as [H | H]; try discriminate H); try contradiction.
  injection H as -> <-. split; [reflexivity |]. split; [reflexivity |].
  eexists [_; _], _, _. reflexivity.
Qed.

(** Application 1 rolls back to deploy 10 while the cache's [Delete] fails. *)
Lemma rollback_ignores_cache_outcome_witness :
  In (EvUpdateApplication 1 (UpdateAppParams.mk 10) None)
     (trace (exec Double.broken_cache
               (handleCreateRollback Double.lib (Double.request "1" [x0a]))
               (Double.world [])))
  /\ In (EvCacheDelete 11 (Some (errors_New "cache unavailable")))
        (trace (exec Double.broken_cache
                  (handleCreateRollback Double.lib (Double.request "1" [x0a]))
                  (Double.world [])))
  /\ answer (exec Double.broken_cache
               (handleCreateRollback Double.lib (Double.request "1" [x0a]))
               (Double.world []))
     = {| StatusCode := StatusOK; Payload := JRollback 10 |}.
Proof.
  assert (In (EvUpdateApplication 1 (UpdateAppParams.mk 10) None)
             (trace (exec Double.broken_cache
                       (handleCreateRollback Double.lib (Double.request "1" [x0a]))
                       (Double.world [])))) as H
    by (vm_compute; tauto).
  split; [exact H |]. split; [vm_compute; tauto |].
  exact (proj1 (rollback_ignores_cache_outcome Double.broken_cache Double.lib
                  (Double.request "1" [x0a]) (Double.world []) 1
                  (UpdateAppParams.mk 10) H)).
Defined.

(** ** The handlers against the in-memory collaborators *)

Lemma fault_at_1 (w : World) : fault_at w 1 = hd false (tl (faults w)).
Proof. unfold fault_at. destruct (faults w) as [| ? [| ? ?]]; reflexivity. Qed.

Lemma fault_at_2 (w : World) : fault_at w 2 = hd false (tl (tl (faults w))).
Proof. unfold fault_at. destruct (faults w) as [| ? [| ? [| ? ?]]]; reflexivity. Qed.

(** C4: a rollback to a deploy id the store does not know answers 404, and
    neither the store nor the cache is touched: the run makes no writing
    store call and no cache call, so the application points where it did. *)
Theorem rollback_unknown_target (lib : Lib) (r : Request) (w : World)
    (appID : UUID) (app : Application.t) (params : CreateRollbackParams.t) :
  uuid_Parse lib (URLParam r "appID") = Ok appID ->
  apps w !! appID = Some app ->
  fault_at w 0 = false ->
  json_Decode_CreateRollbackParams lib (Body r) = Ok params ->
  deploys w !! CreateRollbackParams.DeployID params = None ->
  StatusCode (answer (rollback lib r w)) = StatusNotFound
  /\ failure_class (answer (rollback lib r w)) = Some NotFoundError
  /\ active_deploy (final (rollback lib r w)) appID = active_deploy w appID
  /\ apps (final (rollback lib r w)) = apps w
  /\ deploys (final (rollback lib r w)) = deploys w
  /\ cache (final (rollback lib r w)) = cache w
  /\ forallb (fun e => negb (is_store_write (op_of e)) && negb (is_cache_op (op_of e)))
             (trace (rollback lib r w)) = true.
Proof.
  intros Hparse Happ Hfault Hdecode Htarget.
  rewrite fault_at_0 in Hfault.
  unfold rollback, handleCreateRollback.
  run_mem; unfold active_deploy; at_end; repeat split; reflexivity.
Qed.

(** Application 1 asks for deploy 99, which the store does not hold. *)
Lemma rollback_unknown_target_witness :
  StatusCode (answer (rollback Double.lib (Double.request "1" [x63]) (Double.world [])))
    = StatusNotFound
  /\ active_deploy (final (rollback Double.lib (Double.request "1" [x63]) (Double.world []))) 1
     = Some 11.
Proof.
  pose proof (rollback_unknown_target Double.lib (Double.request "1" [x63])
                (Double.world []) 1 Double.appA (CreateRollbackParams.mk 99)
                eq_refl eq_refl eq_refl eq_refl eq_refl) as H.
  split; [exact (proj1 H) |].
  rewrite (proj1 (proj2 (proj2 H))). reflexivity.
Defined.

(** C10: when the application is found but the request body cannot be
    read, [handleCreateDeploy] answers 404 with the read error; the
    application lookup is the only call made, so no deploy is stored and
    the application points where it did. *)
Theorem create_deploy_unreadable_body (lib : Lib) (r : Request) (w : World)
    (appID : UUID) (app : Application.t) (err : error) :
  uuid_Parse lib (URLParam r "appID") = Ok appID ->
  apps w !! appID = Some app ->
  fault_at w 0 = false ->
  io_ReadAll (Body r) = Err err ->
  answer (create_deploy lib r w)
    = {| StatusCode := StatusNotFound; Payload := ErrorResponse err |}
  /\ failure_class (answer (create_deploy lib r w)) = Some NotFoundError
  /\ trace (create_deploy lib r w) = [EvGetApplication appID (Ok app)]
  /\ deploys (final (create_deploy lib r w)) = deploys w
  /\ apps (final (create_deploy lib r w)) = apps w
  /\ active_deploy (final (create_deploy lib r w)) appID = active_deploy w appID.
Proof.
  intros Hparse Happ Hfault Hread.
  rewrite fault_at_0 in Hfault.
  unfold create_deploy, handleCreateDeploy.
  run_mem; unfold active_deploy; at_end; repeat split; reflexivity.
Qed.

(** A deploy for application 1 whose body breaks off while being read. *)
Lemma create_deploy_unreadable_body_witness :
  answer (create_deploy Double.lib (Double.broken_request "1") (Double.world []))
    = {| StatusCode := StatusNotFound;
         Payload := ErrorResponse (errors_New "unexpected EOF") |}
  /\ deploys (final (create_deploy Double.lib (Double.broken_request "1") (Double.world [])))
     = deploys (Double.world []).
Proof.
  pose proof (create_deploy_unreadable_body Double.lib (Double.broken_request "1")
                (Double.world []) 1 Double.appA (errors_New "unexpected EOF")
                eq_refl eq_refl eq_refl eq_refl) as H.
  split; [exact (proj1 H) | exact (proj1 (proj2 (proj2 (proj2 H))))].
Defined.

(** C5: when the store has taken the new deploy but then refuses the
    pointer update, [handleCreateDeploy] answers with that error (422);
    the deploy stays in the store under its id and the applications are
    what they were, so the active deploy keeps its prior value. *)
Theorem create_deploy_partial_failure (lib : Lib) (r : Request) (w : World)
    (appID : UUID) (deploy : Deploy.t) (params : UpdateAppParams.t) (err : error) :
  In (EvCreateDeploy deploy None) (trace (create_deploy lib r w)) ->
  In (EvUpdateApplication appID params (Some err)) (trace (create_deploy lib r w)) ->
  answer (create_deploy lib r w)
    = {| StatusCode := StatusUnprocessableEntity; Payload := ErrorResponse err |}
  /\ failure_class (answer (create_deploy lib r w)) = Some StoreError
  /\ deploys (final (create_deploy lib r w)) !! Deploy.ID deploy = Some deploy
  /\ apps (final (create_deploy lib r w)) = apps w
  /\ active_deploy (final (create_deploy lib r w)) appID = active_deploy w appID.
Proof.
  unfold create_deploy, handleCreateDeploy.
  run_mem; intros Hc Hu; pick_event Hc; pick_event Hu;
    injection Hc as <-; injection Hu as <- <- <-;
    unfold active_deploy; at_end;
    repeat split; try reflexivity; apply lookup_insert_eq.
Qed.

(** A deploy for application 1 where the third store call, the update, fails. *)
Lemma create_deploy_partial_failure_witness :
  answer (create_deploy Double.lib (Double.request "1" [x14]) (Double.world [false; false; true]))
    = {| StatusCode := StatusUnprocessableEntity; Payload := ErrorResponse ErrStore |}
  /\ deploys (final (create_deploy Double.lib (Double.request "1" [x14])
                       (Double.world [false; false; true]))) !! 1000
     = Some (Deploy.mk 1000 1 [x14] 500)
  /\ active_deploy (final (create_deploy Double.lib (Double.request "1" [x14])
                             (Double.world [false; false; true]))) 1
     = Some 11.
Proof.
  assert (In (EvCreateDeploy (Deploy.mk 1000 1 [x14] 500) None)
             (trace (create_deploy Double.lib (Double.request "1" [x14])
                       (Double.world [false; false; true])))) as Hc
    by (vm_compute; tauto).
  assert (In (EvUpdateApplication 1 (UpdateAppParams.mk 1000) (Some ErrStore))
             (trace (create_deploy Double.lib (Double.request "1" [x14])
                       (Double.world [false; false; true])))) as Hu
    by (vm_compute; tauto).
  pose proof (create_deploy_partial_failure Double.lib (Double.request "1" [x14])
                (Double.world [false; false; true]) 1 _ _ _ Hc Hu) as H.
  split; [exact (proj1 H) |].
  split; [exact (proj1 (proj2 (proj2 H))) |].
  rewrite (proj2 (proj2 (proj2 (proj2 H)))). reflexivity.
Defined.

(** C3: when [handleCreateDeploy] answers 200 with deploy [D], the
    application named in the request is in the store and points at [D];
    [D] is stored under its id, is bound to that application and carries
    the bytes of the request body. *)
Theorem create_deploy_activates (lib : Lib) (r : Request) (w : World)
    (appID : UUID) (D : Deploy.t) :
  uuid_Parse lib (URLParam r "appID") = Ok appID ->
  answer (create_deploy lib r w)
    = {| StatusCode := StatusOK; Payload := JDeploy D |} ->
  active_deploy (final (create_deploy lib r w)) appID = Some (Deploy.ID D)
  /\ deploys (final (create_deploy lib r w)) !! Deploy.ID D = Some D
  /\ exists app : Application.t,
       apps w !! appID = Some app
       /\ Deploy.ApplicationID D = Application.ID app
       /\ io_ReadAll (Body r) = Ok (Deploy.Payload D).
Proof.
  intros Hparse. unfold create_deploy, handleCreateDeploy.
  run_mem; intros Hanswer; try (wrong_answer Hanswer);
    cbn [exec writeJSON after answer] in Hanswer;
    injection Hanswer as <-;
    unfold active_deploy; at_end; cbn [Deploy.ID Deploy.ApplicationID Deploy.Payload].
  all: split; [rewrite lookup_insert_eq; reflexivity |].
  all: split; [apply lookup_insert_eq |].
  all: eexists; repeat split; reflexivity.
Qed.

(** A deploy for application 1 with a one-byte payload, no store failure. *)
Lemma create_deploy_activates_witness :
  active_deploy (final (create_deploy Double.lib (Double.request "1" [x14]) (Double.world []))) 1
    = Some 1000
  /\ deploys (final (create_deploy Double.lib (Double.request "1" [x14]) (Double.world []))) !! 1000
     = Some (Deploy.mk 1000 1 [x14] 500).
Proof.
  pose proof (create_deploy_activates Double.lib (Double.request "1" [x14])
                (Double.world []) 1 (Deploy.mk 1000 1 [x14] 500)
                eq_refl eq_refl) as H.
  split; [exact (proj1 H) | exact (proj1 (proj2 H))].
Defined.

(** C2: a rollback that answers 200 returns the id of the target deploy,
    leaves the application pointing at it, and evicts the cache entry of
    the deploy that was active before; the id to evict is read before the
    update, and the eviction is the call after the accepted update. *)
Theorem rollback_correct (lib : Lib) (r : Request) (w : World)
    (appID : UUID) (app : Application.t) (params : CreateRollbackParams.t)
    (D1 : Deploy.t) :
  uuid_Parse lib (URLParam r "appID") = Ok appID ->
  apps w !! appID = Some app ->
  json_Decode_CreateRollbackParams lib (Body r) = Ok params ->
  deploys w !! CreateRollbackParams.DeployID params = Some D1 ->
  StatusCode (answer (rollback lib r w)) = StatusOK ->
  Payload (answer (rollback lib r w)) = JRollback (Deploy.ID D1)
  /\ active_deploy (final (rollback lib r w)) appID = Some (Deploy.ID D1)
  /\ cache (final (rollback lib r w)) !! Application.ActiveDeployID app = None
  /\ deploys (final (rollback lib r w)) = deploys w
  /\ trace (rollback lib r w)
     = [EvGetApplication appID (Ok app);
        EvGetDeploy (CreateRollbackParams.DeployID params) (Ok D1);
        EvUpdateApplication appID (UpdateAppParams.mk (Deploy.ID D1)) None;
        EvCacheDelete (Application.ActiveDeployID app) None].
Proof.
  intros Hparse Happ Hdecode Htarget. unfold rollback, handleCreateRollback.
  run_mem; intros Hstatus; try (wrong_answer Hstatus);
    unfold active_deploy; at_end.
  split; [reflexivity |].
  split; [rewrite lookup_insert_eq; reflexivity |].
  split; [apply lookup_delete_eq |].
  split; reflexivity.
Qed.

(** Application 1, active deploy 11, rolls back to its deploy 10. *)
Lemma rollback_correct_witness :
  StatusCode (answer (rollback Double.lib (Double.request "1" [x0a]) (Double.world [])))
    = StatusOK
  /\ Payload (answer (rollback Double.lib (Double.request "1" [x0a]) (Double.world [])))
     = JRollback 10
  /\ active_deploy (final (rollback Double.lib (Double.request "1" [x0a]) (Double.world []))) 1
     = Some 10
  /\ cache (Double.world []) !! 11 = Some [xaa]
  /\ cache (final (rollback Double.lib (Double.request "1" [x0a]) (Double.world []))) !! 11
     = None.
Proof.
  pose proof (rollback_correct Double.lib (Double.request "1" [x0a])
                (Double.world []) 1 Double.appA (CreateRollbackParams.mk 10)
                Double.d10 eq_refl eq_refl eq_refl eq_refl eq_refl) as H.
  split; [reflexivity |].
  split; [exact (proj1 H) |].
  split; [exact (proj1 (proj2 H)) |].
  split; [reflexivity | exact (proj1 (proj2 (proj2 H)))].
Defined.

(** C1, as the spec states it, fails: application 1 rolls back to deploy
    20, which belongs to application 2; the request is not rejected and
    application 1 ends up pointing at deploy 20. *)
Lemma rollback_foreign_deploy_counterexample :
  uuid_Parse Double.lib (URLParam (Double.request "1" [x14]) "appID") = Ok 1
  /\ apps (Double.world []) !! 1 = Some Double.appA
  /\ json_Decode_CreateRollbackParams Double.lib (Body (Double.request "1" [x14]))
     = Ok (CreateRollbackParams.mk 20)
  /\ deploys (Double.world []) !! 20 = Some Double.d20
  /\ Deploy.ApplicationID Double.d20 <> 1
  /\ ~ (failure_class (answer (rollback Double.lib (Double.request "1" [x14]) (Double.world [])))
          = Some ValidationError
        /\ active_deploy (final (rollback Double.lib (Double.request "1" [x14]) (Double.world []))) 1
           = active_deploy (Double.world []) 1).
Proof.
  repeat split; try reflexivity.
  - discriminate.
  - intros [Hclass _]. vm_compute in Hclass. discriminate Hclass.
Qed.

(** C1, amended: [handleCreateRollback] does not compare the target
    deploy's application with the application of the request. When the
    two differ and the store serves the two lookups and the update, the
    rollback answers 200 with the target's id and the application points
    at the foreign deploy. *)
Theorem rollback_foreign_deploy_activated (lib : Lib) (r : Request) (w : World)
    (appID : UUID) (app : Application.t) (params : CreateRollbackParams.t)
    (target : Deploy.t) :
  uuid_Parse lib (URLParam r "appID") = Ok appID ->
  apps w !! appID = Some app ->
  json_Decode_CreateRollbackParams lib (Body r) = Ok params ->
  deploys w !! CreateRollbackParams.DeployID params = Some target ->
  Deploy.ApplicationID target <> appID ->
  fault_at w 0 = false -> fault_at w 1 = false -> fault_at w 2 = false ->
  answer (rollback lib r w)
    = {| StatusCode := StatusOK; Payload := JRollback (Deploy.ID target) |}
  /\ failure_class (answer (rollback lib r w)) = None
  /\ active_deploy (final (rollback lib r w)) appID = Some (Deploy.ID target)
  /\ In (EvUpdateApplication appID (UpdateAppParams.mk (Deploy.ID target)) None)
        (trace (rollback lib r w)).
Proof.
  intros Hparse Happ Hdecode Htarget _ Hf0 Hf1 Hf2.
  rewrite fault_at_0 in Hf0. rewrite fault_at_1 in Hf1. rewrite fault_at_2 in Hf2.
  unfold rollback, handleCreateRollback.
  run_mem; unfold active_deploy; at_end.
  split; [reflexivity |]. split; [reflexivity |].
  split; [rewrite lookup_insert_eq; reflexivity |].
  cbn [In]. tauto.
Qed.

(** Application 1 rolls back to deploy 20 of application 2. *)
Lemma rollback_foreign_deploy_activated_witness :
  answer (rollback Double.lib (Double.request "1" [x14]) (Double.world []))
    = {| StatusCode := StatusOK; Payload := JRollback 20 |}
  /\ active_deploy (final (rollback Double.lib (Double.request "1" [x14]) (Double.world []))) 1
     = Some 20.
Proof.
  assert (Deploy.ApplicationID Double.d20 <> 1) as Hforeign by discriminate.
  pose proof (rollback_foreign_deploy_activated Double.lib (Double.request "1" [x14])
                (Double.world []) 1 Double.appA (CreateRollbackParams.mk 20)
                Double.d20 eq_refl eq_refl eq_refl eq_refl Hforeign
                eq_refl eq_refl eq_refl) as H.
  split; [exact (proj1 H) | exact (proj1 (proj2 (proj2 H)))].
Defined.

(** C7: a rollback for an application the store does not know is
    answered 400, the status of a bad request, where the same failed
    lookup in [handleCreateDeploy] and [handleGetApplication] is
    answered 404. *)
Lemma rollback_unknown_application_status :
  uuid_Parse Double.lib (URLParam (Double.request "7" [x0a]) "appID") = Ok 7
  /\ apps (Double.world []) !! 7 = None
  /\ answer (rollback Double.lib (Double.request "7" [x0a]) (Double.world []))
     = {| StatusCode := StatusBadRequest; Payload := ErrorResponse ErrNotFound |}
  /\ failure_class (answer (rollback Double.lib (Double.request "7" [x0a]) (Double.world [])))
     = Some ValidationError
  /\ failure_class (answer (create_deploy Double.lib (Double.request "7" [x0a]) (Double.world [])))
     = Some NotFoundError
  /\ failure_class (answer (exec mem (handleGetApplication Double.lib (Double.request "7" [x0a]))
                              (Double.world [])))
     = Some NotFoundError.
Proof. repeat split; reflexivity. Qed.

(** C6: [validate] rejects a name exactly when it is shorter than 3 or
    longer than 20 bytes, always with the same message, and
    [handleCreateApp] turns the rejection into a 400 before any call is
    made. The message names 3 and 40: the upper bound it states is not
    the upper bound the check enforces, and a name of 21 to 39 bytes is
    rejected with a message that describes it as acceptable. *)
Theorem validate_bound_and_message {S : Type} (I : Impl S) (lib : Lib)
    (r : Request) (s : S) (p : CreateAppParams.t) :
  json_Decode_CreateAppParams lib (Body r) = Ok p ->
  (validate p <> None
     <-> (String.length (CreateAppParams.Name p) < 3
          \/ 20 < String.length (CreateAppParams.Name p))%nat)
  /\ (validate p = None \/ validate p = Some (errors_New validate_message))
  /\ (validate p = None
      \/ (answer (exec I (handleCreateApp lib r) s)
            = {| StatusCode := StatusBadRequest;
                 Payload := ErrorResponse (errors_New validate_message) |}
          /\ failure_class (answer (exec I (handleCreateApp lib r) s))
             = Some ValidationError
          /\ trace (exec I (handleCreateApp lib r) s) = []
          /\ final (exec I (handleCreateApp lib r) s) = s))
  /\ numerals validate_message = [3; 40]
  /\ ((20 < String.length (CreateAppParams.Name p) < 40)%nat
      <-> (validate p <> None
           /\ 3 < String.length (CreateAppParams.Name p) < 40)%nat).
Proof.
  intros Hdecode.
  assert (validate p <> None
            <-> (String.length (CreateAppParams.Name p) < 3
                 \/ 20 < String.length (CreateAppParams.Name p))%nat) as Hiff.
  { unfold validate.
    destruct ((String.length (CreateAppParams.Name p) <? 3)%nat
              || (20 <? String.length (CreateAppParams.Name p))%nat) eqn:Hcheck.
    - apply orb_true_iff in Hcheck. rewrite !Nat.ltb_lt in Hcheck.
      split; [intros _; exact Hcheck | discriminate].
    - apply orb_false_iff in Hcheck. rewrite !Nat.ltb_ge in Hcheck.
      split; [congruence | lia]. }
  split; [exact Hiff |].
  split.
  { unfold validate. case_match; [right | left]; reflexivity. }
  split.
  { unfold handleCreateApp. rewrite Hdecode. unfold validate.
    case_match; [right | left; reflexivity]. repeat split. }
  split; [reflexivity |].
  rewrite Hiff. lia.
Qed.

(** A name of 24 bytes: below the 40 of the message, above the 20 of the check. *)
Lemma validate_bound_and_message_witness :
  validate (CreateAppParams.mk "a-name-of-twenty-five-ch" ∅)
    = Some (errors_New validate_message)
  /\ String.length "a-name-of-twenty-five-ch" = 24%nat
  /\ answer (exec mem (handleCreateApp Double.lib
                         (Double.request "0" (list_byte_of_string "a-name-of-twenty-five-ch")))
               (Double.world []))
     = {| StatusCode := StatusBadRequest;
          Payload := ErrorResponse (errors_New validate_message) |}.
Proof.
  pose proof (validate_bound_and_message mem Double.lib
                (Double.request "0" (list_byte_of_string "a-name-of-twenty-five-ch"))
                (Double.world [])
                (CreateAppParams.mk "a-name-of-twenty-five-ch" ∅) eq_refl) as H.
  split; [reflexivity |]. split; [reflexivity |].
  destruct H as (_ & _ & [Hnone | [Hanswer _]] & _).
  - discriminate Hnone.
  - exact Hanswer.
Defined.

(** * Further properties of the handlers *)

(** ** Requests that are turned away before any call *)

(** X1: a request whose [appID] does not parse is answered 400 with the
    parse error by [handleCreateDeploy], [handleGetApplication] and
    [handleCreateRollback] alike, before any call to store or cache. *)
Theorem malformed_id_rejected {S : Type} (I : Impl S) (lib : Lib) (r : Request)
    (s : S) (err : error) :
  uuid_Parse lib (URLParam r "appID") = Err err ->
  exec I (handleCreateDeploy lib r) s
    = {| answer := {| StatusCode := StatusBadRequest; Payload := ErrorResponse err |};
         final := s; trace := [] |}
  /\ exec I (handleGetApplication lib r) s
     = {| answer := {| StatusCode := StatusBadRequest; Payload := ErrorResponse err |};
          final := s; trace := [] |}
  /\ exec I (handleCreateRollback lib r) s
     = {| answer := {| StatusCode := StatusBadRequest; Payload := ErrorResponse err |};
          final := s; trace := [] |}.
Proof.
  intros Hparse.
  unfold handleCreateDeploy, handleGetApplication, handleCreateRollback.
  rewrite Hparse. repeat split.
Qed.

(** A request for application "x7": not a number. *)
Lemma malformed_id_rejected_witness :
  trace (exec mem (handleCreateRollback Double.lib (Double.request "x7" [x0a]))
           (Double.world [])) = []
  /\ StatusCode (answer (exec mem (handleCreateDeploy Double.lib (Double.request "x7" [x0a]))
                           (Double.world []))) = StatusBadRequest.
Proof.
  pose proof (malformed_id_rejected mem Double.lib (Double.request "x7" [x0a])
                (Double.world []) (errors_New "invalid UUID format") eq_refl) as H.
  split.
  - rewrite (proj2 (proj2 H)). reflexivity.
  - rewrite (proj1 H). reflexivity.
Defined.

(** X2: when the body of a create-application request cannot be decoded,
    [handleCreateApp] answers 400 with the fixed [ErrDecodeRequestBody],
    not with the decoder's own error, and calls nothing. *)
Theorem create_app_undecodable_body {S : Type} (I : Impl S) (lib : Lib)
    (r : Request) (s : S) (err : error) :
  json_Decode_CreateAppParams lib (Body r) = Err err ->
  exec I (handleCreateApp lib r) s
    = {| answer := {| StatusCode := StatusBadRequest;
                      Payload := ErrorResponse (ErrDecodeRequestBody lib) |};
         final := s; trace := [] |}.
Proof.
  intros Hdecode. unfold handleCreateApp. rewrite Hdecode. reflexivity.
Qed.

(** A body that breaks off with "unexpected EOF": the answer does not say so. *)
Lemma create_app_undecodable_body_witness :
  Payload (answer (exec mem (handleCreateApp Double.lib (Double.broken_request "1"))
                     (Double.world [])))
    = ErrorResponse (errors_New "could not decode request body").
Proof.
  rewrite (create_app_undecodable_body mem Double.lib (Double.broken_request "1")
             (Double.world []) (errors_New "unexpected EOF") eq_refl).
  reflexivity.
Defined.

(** ** [handleCreateApp] *)

(** X3: whenever [handleCreateApp] answers 200, the application in the
    answer is the one handed to the store, which accepted it: it is what
    [types.NewApplication] built from the decoded name and environment,
    with the endpoint set to the configured URL, a slash and the id. Its
    name passed [validate]. *)
Theorem create_app_success_shape {S : Type} (I : Impl S) (lib : Lib)
    (r : Request) (s : S) (app : Application.t) :
  answer (exec I (handleCreateApp lib r) s)
    = {| StatusCode := StatusOK; Payload := JApplication app |} ->
  exists (params : CreateAppParams.t) (fresh : Application.t),
    json_Decode_CreateAppParams lib (Body r) = Ok params
    /\ validate params = None
    /\ app = Application.set_Endpoint
               (config_GetWasmUrl lib ++ "/" ++ uuid_String lib (Application.ID fresh))
               fresh
    /\ trace (exec I (handleCreateApp lib r) s)
       = [EvNewApplication (CreateAppParams.Name params)
                           (CreateAppParams.Environment params) fresh;
          EvCreateApplication app None].
Proof.
  unfold handleCreateApp.
  destruct (json_Decode_CreateAppParams lib (Body r)) as [params | e] eqn:Hdecode;
    [| discriminate].
  destruct (validate params) eqn:Hvalid; [discriminate |].
  run_any I; intros Hanswer; try discriminate Hanswer.
  injection Hanswer as <-. eexists _, _. repeat split. exact Hvalid.
Qed.

(** A well-named application on the sample world. *)
Lemma create_app_success_shape_witness :
  exists app : Application.t,
    answer (exec mem (handleCreateApp Double.lib
                        (Double.request "0" (list_byte_of_string "gamma")))
              (Double.world []))
      = {| StatusCode := StatusOK; Payload := JApplication app |}
    /\ Application.Endpoint app = "http://localhost:5000/id"
    /\ In (EvCreateApplication app None)
          (trace (exec mem (handleCreateApp Double.lib
                              (Double.request "0" (list_byte_of_string "gamma")))
                    (Double.world []))).
Proof.
  exists (Application.mk 1000 "gamma" ∅ "http://localhost:5000/id" uuid_Nil).
  destruct (create_app_success_shape mem Double.lib
              (Double.request "0" (list_byte_of_string "gamma")) (Double.world [])
              (Application.mk 1000 "gamma" ∅ "http://localhost:5000/id" uuid_Nil)
              eq_refl) as (params & fresh & _ & _ & _ & Htrace).
  split; [reflexivity |]. split; [reflexivity |].
  rewrite Htrace. right. left. reflexivity.
Defined.

(** X4: when the store refuses the new application, [handleCreateApp]
    answers 400 with the store's error, and the refused call is its last. *)
Theorem create_app_store_refusal {S : Type} (I : Impl S) (lib : Lib)
    (r : Request) (s : S) (app : Application.t) (err : error) :
  In (EvCreateApplication app (Some err)) (trace (exec I (handleCreateApp lib r) s)) ->
  answer (exec I (handleCreateApp lib r) s)
    = {| StatusCode := StatusBadRequest; Payload := ErrorResponse err |}
  /\ exists (name : string) (env : gmap string string) (fresh : Application.t),
       trace (exec I (handleCreateApp lib r) s)
       = [EvNewApplication name env fresh; EvCreateApplication app (Some err)].
Proof.
  unfold handleCreateApp.
  destruct (json_Decode_CreateAppParams lib (Body r)) as [params | e];
    [| intros []].
  destruct (validate params); [intros [] |].
  run_any I; intros H; trace_cases H.
  injection H as <- <-. split; [reflexivity |]. eexists _, _, _. reflexivity.
Qed.

(** The store fails on its first call. *)
Lemma create_app_store_refusal_witness :
  answer (exec mem (handleCreateApp Double.lib
                      (Double.request "0" (list_byte_of_string "gamma")))
            (Double.world [true]))
    = {| StatusCode := StatusBadRequest; Payload := ErrorResponse ErrStore |}.
Proof.
  assert (In (EvCreateApplication
                (Application.mk 1000 "gamma" ∅ "http://localhost:5000/id" uuid_Nil)
                (Some ErrStore))
             (trace (exec mem (handleCreateApp Double.lib
                                 (Double.request "0" (list_byte_of_string "gamma")))
                       (Double.world [true])))) as H
    by (vm_compute; tauto).
  exact (proj1 (create_app_store_refusal mem Double.lib _ _ _ _ H)).
Defined.

(** ** [handleCreateDeploy] *)

(** X5: [handleCreateDeploy] asks the store to re-point an application
    only after the store has accepted the new deploy, and only at that
    deploy: whenever a run contains a pointer update, whatever its outcome,
    the run is the lookup of the application named in the request, the
    construction of a deploy from that application and the bytes of the
    body, its accepted creation, and the update to its id. *)
Theorem create_deploy_update_follows_store {S : Type} (I : Impl S) (lib : Lib)
    (r : Request) (s : S) (id : UUID) (params : UpdateAppParams.t)
    (outcome : option error) :
  In (EvUpdateApplication id params outcome)
     (trace (exec I (handleCreateDeploy lib r) s)) ->
  uuid_Parse lib (URLParam r "appID") = Ok id
  /\ exists (app : Application.t) (b : list byte) (deploy : Deploy.t),
       io_ReadAll (Body r) = Ok b
       /\ params = UpdateAppParams.mk (Deploy.ID deploy)
       /\ trace (exec I (handleCreateDeploy lib r) s)
          = [EvGetApplication id (Ok app);
             EvNewDeploy app b deploy;
             EvCreateDeploy deploy None;
             EvUpdateApplication id params outcome].
Proof.
  unfold handleCreateDeploy.
  destruct (uuid_Parse lib (URLParam r "appID")) as [appID | e]; [| intros []].
  destruct (io_ReadAll (Body r)) as [b | e];
    run_any I; intros H; trace_cases H;
    injection H as <- <- <-;
    (split; [reflexivity |]); eexists _, _, _; repeat split.
Qed.

(** A deploy for application 1 whose pointer update the store refuses. *)
Lemma create_deploy_update_follows_store_witness :
  length (trace (exec mem (handleCreateDeploy Double.lib (Double.request "1" [x14]))
                   (Double.world [false; false; true]))) = 4%nat
  /\ uuid_Parse Double.lib (URLParam (Double.request "1" [x14]) "appID") = Ok 1.
Proof.
  assert (In (EvUpdateApplication 1 (UpdateAppParams.mk 1000) (Some ErrStore))
             (trace (exec mem (handleCreateDeploy Double.lib (Double.request "1" [x14]))
                       (Double.world [false; false; true])))) as H
    by (vm_compute; tauto).
  destruct (create_deploy_update_follows_store mem Double.lib _ _ _ _ _ H)
    as (Hparse & app & b & deploy & _ & _ & Htrace).
  split; [rewrite Htrace; reflexivity | exact Hparse].
Defined.

(** X6: a deploy the store refuses is never made active:
    [handleCreateDeploy] answers 422 with the store's error and the
    refused creation is the last call of the run. *)
Theorem create_deploy_refused_not_activated {S : Type} (I : Impl S) (lib : Lib)
    (r : Request) (s : S) (deploy : Deploy.t) (err : error) :
  In (EvCreateDeploy deploy (Some err)) (trace (exec I (handleCreateDeploy lib r) s)) ->
  answer (exec I (handleCreateDeploy lib r) s)
    = {| StatusCode := StatusUnprocessableEntity; Payload := ErrorResponse err |}
  /\ (exists (id : UUID) (app : Application.t) (b : list byte),
        trace (exec I (handleCreateDeploy lib r) s)
        = [EvGetApplication id (Ok app);
           EvNewDeploy app b deploy;
           EvCreateDeploy deploy (Some err)])
  /\ forall (id : UUID) (params : UpdateAppParams.t) (outcome : option error),
       ~ In (EvUpdateApplication id params outcome)
            (trace (exec I (handleCreateDeploy lib r) s)).
Proof.
  unfold handleCreateDeploy.
  destruct (uuid_Parse lib (URLParam r "appID")) as [appID | e]; [| intros []].
  destruct (io_ReadAll (Body r)) as [b | e];
    run_any I; intros H; trace_cases H.
  injection H as <- <-.
  split; [reflexivity |]. split; [eexists _, _, _; reflexivity |].
  intros id params outcome Hin. trace_cases Hin.
Qed.

(** A deploy for application 1 where the store fails on the creation. *)
Lemma create_deploy_refused_not_activated_witness :
  answer (exec mem (handleCreateDeploy Double.lib (Double.request "1" [x14]))
            (Double.world [false; true]))
    = {| StatusCode := StatusUnprocessableEntity; Payload := ErrorResponse ErrStore |}.
Proof.
  assert (In (EvCreateDeploy (Deploy.mk 1000 1 [x14] 500) (Some ErrStore))
             (trace (exec mem (handleCreateDeploy Double.lib (Double.request "1" [x14]))
                       (Double.world [false; true])))) as H
    by (vm_compute; tauto).
  exact (proj1 (create_deploy_refused_not_activated mem Double.lib _ _ _ _ H)).
Defined.

(** ** [handleCreateRollback] *)

(** X7: [handleCreateRollback] evicts from the cache only after the store
    has accepted the pointer update, and the key evicted is the active
    deploy id the application lookup returned, the zero id included:
    whenever a run contains an eviction, it is the last of exactly four
    calls and the answer is 200 with the id of the deploy looked up. *)
Theorem rollback_eviction_follows_update {S : Type} (I : Impl S) (lib : Lib)
    (r : Request) (s : S) (id : UUID) (outcome : option error) :
  In (EvCacheDelete id outcome) (trace (exec I (handleCreateRollback lib r) s)) ->
  exists (appID : UUID) (app : Application.t) (params : CreateRollbackParams.t)
         (deploy : Deploy.t),
    uuid_Parse lib (URLParam r "appID") = Ok appID
    /\ json_Decode_CreateRollbackParams lib (Body r) = Ok params
    /\ id = Application.ActiveDeployID app
    /\ trace (exec I (handleCreateRollback lib r) s)
       = [EvGetApplication appID (Ok app);
          EvGetDeploy (CreateRollbackParams.DeployID params) (Ok deploy);
          EvUpdateApplication appID (UpdateAppParams.mk (Deploy.ID deploy)) None;
          EvCacheDelete id outcome]
    /\ answer (exec I (handleCreateRollback lib r) s)
       = {| StatusCode := StatusOK; Payload := JRollback (Deploy.ID deploy) |}.
Proof.
  unfold handleCreateRollback.
  destruct (uuid_Parse lib (URLParam r "appID")) as [appID | e]; [| intros []].
  destruct (json_Decode_CreateRollbackParams lib (Body r)) as [params | e];
    run_any I; intros H; trace_cases H.
  injection H as <- <-. eexists _, _, _, _. repeat split.
Qed.

(** Application 1, active deploy 11, rolls back to deploy 10. *)
Lemma rollback_eviction_follows_update_witness :
  answer (exec mem (handleCreateRollback Double.lib (Double.request "1" [x0a]))
            (Double.world []))
    = {| StatusCode := StatusOK; Payload := JRollback 10 |}.
Proof.
  assert (In (EvCacheDelete 11 None)
             (trace (exec mem (handleCreateRollback Double.lib (Double.request "1" [x0a]))
                       (Double.world [])))) as H
    by (vm_compute; tauto).
  destruct (rollback_eviction_follows_update mem Double.lib _ _ _ _ H)
    as (appID & app & params & deploy & _ & _ & _ & _ & Hanswer).
  reflexivity.
Defined.

(** X8: when the store refuses the pointer update of a rollback,
    [handleCreateRollback] answers 400 with the store's error and evicts
    nothing from the cache. *)
Theorem rollback_update_refused {S : Type} (I : Impl S) (lib : Lib)
    (r : Request) (s : S) (appID : UUID) (params : UpdateAppParams.t) (err : error) :
  In (EvUpdateApplication appID params (Some err))
     (trace (exec I (handleCreateRollback lib r) s)) ->
  answer (exec I (handleCreateRollback lib r) s)
    = {| StatusCode := StatusBadRequest; Payload := ErrorResponse err |}
  /\ forall (id : UUID) (outcome : option error),
       ~ In (EvCacheDelete id outcome) (trace (exec I (handleCreateRollback lib r) s)).
Proof.
  unfold handleCreateRollback.
  destruct (uuid_Parse lib (URLParam r "appID")) as [a | e]; [| intros []].
  destruct (json_Decode_CreateRollbackParams lib (Body r)) as [ps | e];
    run_any I; intros H; trace_cases H.
  injection H as <- <- <-. split; [reflexivity |].
  intros id outcome Hin. trace_cases Hin.
Qed.

(** Application 1 rolls back to deploy 10 and the store fails on the update. *)
Lemma rollback_update_refused_witness :
  answer (exec mem (handleCreateRollback Double.lib (Double.request "1" [x0a]))
            (Double.world [false; false; true]))
    = {| StatusCode := StatusBadRequest; Payload := ErrorResponse ErrStore |}
  /\ cache (final (exec mem (handleCreateRollback Double.lib (Double.request "1" [x0a]))
                     (Double.world [false; false; true]))) !! 11
     = Some [xaa].
Proof.
  assert (In (EvUpdateApplication 1 (UpdateAppParams.mk 10) (Some ErrStore))
             (trace (exec mem (handleCreateRollback Double.lib (Double.request "1" [x0a]))
                       (Double.world [false; false; true])))) as H
    by (vm_compute; tauto).
  split; [| reflexivity].
  exact (proj1 (rollback_update_refused mem Double.lib _ _ _ _ _ H)).
Defined.

(** ** What the handlers keep of the store *)

Lemma same_identity_refl (app : Application.t) : same_identity app app.
Proof. repeat split. Qed.

Lemma same_identity_repoint (d : UUID) (app : Application.t) :
  same_identity app (Application.set_ActiveDeployID d app).
Proof. repeat split. Qed.

Lemma same_identity_trans (a b c : Application.t) :
  same_identity a b -> same_identity b c -> same_identity a c.
Proof. unfold same_identity. intuition congruence. Qed.

Lemma extends_refl (w w' : World) :
  apps w' = apps w -> deploys w' = deploys w -> extends w w'.
Proof.
  intros Ha Hd. split; [rewrite Hd; reflexivity |].
  intros id app Hin. exists app. rewrite Ha. split; [exact Hin | apply same_identity_refl].
Qed.

Lemma extends_trans (w1 w2 w3 : World) :
  extends w1 w2 -> extends w2 w3 -> extends w1 w3.
Proof.
  intros [Hd12 Ha12] [Hd23 Ha23]. split; [etrans; eassumption |].
  intros id app Hin.
  destruct (Ha12 _ _ Hin) as (app2 & Hin2 & Hsame2).
  destruct (Ha23 _ _ Hin2) as (app3 & Hin3 & Hsame3).
  exists app3. split; [exact Hin3 | eapply same_identity_trans; eassumption].
Qed.

(** The store takes a deploy under an id that was free. *)
Lemma extends_add_deploy (w w' : World) (deploy : Deploy.t) :
  deploys w !! Deploy.ID deploy = None ->
  apps w' = apps w ->
  deploys w' = <[Deploy.ID deploy := deploy]> (deploys w) ->
  extends w w'.
Proof.
  intros Hfree Ha Hd. split; [rewrite Hd; apply insert_subseteq, Hfree |].
  intros id app Hin. exists app. rewrite Ha. split; [exact Hin | apply same_identity_refl].
Qed.

(** The store takes an application under an id that was free. *)
Lemma extends_add_app (w w' : World) (app : Application.t) :
  apps w !! Application.ID app = None ->
  apps w' = <[Application.ID app := app]> (apps w) ->
  deploys w' = deploys w ->
  extends w w'.
Proof.
  intros Hfree Ha Hd. split; [rewrite Hd; reflexivity |].
  intros id app0 Hin. exists app0. rewrite Ha.
  split; [| apply same_identity_refl].
  rewrite lookup_insert_ne; [exact Hin | congruence].
Qed.

(** The store re-points an application it holds. *)
Lemma extends_repoint (w w' : World) (id d : UUID) (app : Application.t) :
  apps w !! id = Some app ->
  apps w' = <[id := Application.set_ActiveDeployID d app]> (apps w) ->
  deploys w' = deploys w ->
  extends w w'.
Proof.
  intros Hheld Ha Hd. split; [rewrite Hd; reflexivity |].
  intros id0 app0 Hin. rewrite Ha.
  destruct (decide (id = id0)) as [<- | Hne].
  - exists (Application.set_ActiveDeployID d app).
    rewrite lookup_insert_eq. split; [reflexivity |].
    assert (app0 = app) as -> by congruence. apply same_identity_repoint.
  - exists app0. rewrite lookup_insert_ne by exact Hne.
    split; [exact Hin | apply same_identity_refl].
Qed.

(** The store takes a deploy and then re-points an application. *)
Lemma extends_deploy_repoint (w w' : World) (id d : UUID) (app : Application.t)
    (deploy : Deploy.t) :
  deploys w !! Deploy.ID deploy = None ->
  apps w !! id = Some app ->
  apps w' = <[id := Application.set_ActiveDeployID d app]> (apps w) ->
  deploys w' = <[Deploy.ID deploy := deploy]> (deploys w) ->
  extends w w'.
Proof.
  intros Hfree Hheld Ha Hd.
  apply (extends_trans w (set_deploys (<[Deploy.ID deploy := deploy]> (deploys w)) w)).
  - eapply extends_add_deploy; [exact Hfree | reflexivity | reflexivity].
  - eapply extends_repoint; [exact Hheld | exact Ha | exact Hd].
Qed.

(** Every handler leaves a store that extends the one it found. *)
Lemma handler_extends (lib : Lib) (route : Route) (r : Request) (w : World) :
  extends w (final (exec mem (handler_of lib route r) w)).
Proof.
  destruct route; cbn [handler_of];
    unfold handleCreateApp, handleGetApplication, handleCreateDeploy,
      handleCreateRollback;
    run_mem; at_end;
    first [ apply extends_refl; reflexivity
          | eapply extends_add_app; [eassumption | reflexivity | reflexivity]
          | eapply extends_add_deploy; [eassumption | reflexivity | reflexivity]
          | eapply extends_repoint; [eassumption | reflexivity | reflexivity]
          | eapply extends_deploy_repoint;
            [eassumption | eassumption | reflexivity | reflexivity] ].
Qed.

Lemma serve_extends (lib : Lib) (reqs : list (Route * Request)) (w : World) :
  extends w (serve lib reqs w).
Proof.
  revert w. induction reqs as [| [route r] rest IH]; intros w; cbn [serve].
  - apply extends_refl; reflexivity.
  - eapply extends_trans; [apply handler_extends | apply IH].
Qed.

(** X9: deploys are history. Whatever requests are served on the four
    routes, in whatever order and with whatever outcome, a deploy the
    store holds stays in the store, under the same id and unchanged. *)
Theorem serve_keeps_deploys (lib : Lib) (reqs : list (Route * Request))
    (w : World) (id : UUID) (deploy : Deploy.t) :
  deploys w !! id = Some deploy ->
  deploys (serve lib reqs w) !! id = Some deploy.
Proof.
  intros Hheld. destruct (serve_extends lib reqs w) as [Hsub _].
  eapply lookup_weaken; eassumption.
Qed.

(** Deploy 10 after a new deploy, a rollback to it and a new application. *)
Lemma serve_keeps_deploys_witness :
  deploys (serve Double.lib
             [(PostDeploy, Double.request "1" [x14]);
              (PostRollback, Double.request "1" [x0a]);
              (PostApplication, Double.request "0" (list_byte_of_string "gamma"))]
             (Double.world []))
    !! 10 = Some Double.d10.
Proof.
  exact (serve_keeps_deploys Double.lib _ (Double.world []) 10 Double.d10 eq_refl).
Defined.

(** X10: applications are never removed, and of an application only the
    active deploy changes: whatever requests are served on the four
    routes, an application the store holds is still held under its id
    afterwards, with the same id, name, environment and endpoint. *)
Theorem serve_keeps_applications (lib : Lib) (reqs : list (Route * Request))
    (w : World) (id : UUID) (app : Application.t) :
  apps w !! id = Some app ->
  exists app' : Application.t,
    apps (serve lib reqs w) !! id = Some app'
    /\ same_identity app app'.
Proof.
  intros Hheld. destruct (serve_extends lib reqs w) as [_ Hkeep].
  apply Hkeep, Hheld.
Qed.

(** Application 1 after a new deploy and a rollback to deploy 10. *)
Lemma serve_keeps_applications_witness :
  exists app' : Application.t,
    apps (serve Double.lib
            [(PostDeploy, Double.request "1" [x14]);
             (PostRollback, Double.request "1" [x0a])]
            (Double.world []))
      !! 1 = Some app'
    /\ Application.Endpoint app' = "http://localhost:5000/1".
Proof.
  destruct (serve_keeps_applications Double.lib
              [(PostDeploy, Double.request "1" [x14]);
               (PostRollback, Double.request "1" [x0a])]
              (Double.world []) 1 Double.appA eq_refl)
    as (app' & Hheld & _ & _ & _ & Hendpoint).
  exists app'. split; [exact Hheld | symmetry; exact Hendpoint].
Defined.

(** ** A consistent store stays consistent *)

Lemma live_mono (ds ds' : gmap N Deploy.t) (app : Application.t) :
  ds ⊆ ds' -> live ds app -> live ds' app.
Proof.
  intros Hsub [Hnil | [deploy Hheld]]; [left; exact Hnil | right].
  exists deploy. eapply lookup_weaken; eassumption.
Qed.

Lemma consistent_frame (w w' : World) :
  store_consistent w -> apps w' = apps w -> deploys w' = deploys w ->
  store_consistent w'.
Proof.
  unfold store_consistent, well_keyed, pointers_live.
  intros Hc -> ->. exact Hc.
Qed.

Lemma consistent_add_deploy (w w' : World) (deploy : Deploy.t) :
  store_consistent w ->
  deploys w !! Deploy.ID deploy = None ->
  apps w' = apps w ->
  deploys w' = <[Deploy.ID deploy := deploy]> (deploys w) ->
  store_consistent w'.
Proof.
  unfold store_consistent, well_keyed, pointers_live.
  intros [[Hka Hkd] Hlive] Hfree -> ->. repeat split.
  - exact Hka.
  - apply map_Forall_insert_2; [reflexivity | exact Hkd].
  - eapply map_Forall_impl; [exact Hlive |].
    intros k app. apply live_mono, insert_subseteq, Hfree.
Qed.

Lemma consistent_add_app (w w' : World) (id : UUID) (app : Application.t) :
  store_consistent w ->
  apps w' = <[id := app]> (apps w) ->
  deploys w' = deploys w ->
  Application.ID app = id ->
  Application.ActiveDeployID app = uuid_Nil ->
  store_consistent w'.
Proof.
  unfold store_consistent, well_keyed, pointers_live.
  intros [[Hka Hkd] Hlive] -> -> Hid Hnil. repeat split.
  - apply map_Forall_insert_2; [exact Hid | exact Hka].
  - exact Hkd.
  - apply map_Forall_insert_2; [left; exact Hnil | exact Hlive].
Qed.

Lemma consistent_repoint (w w' : World) (id d : UUID) (app : Application.t) :
  store_consistent w ->
  apps w !! id = Some app ->
  is_Some (deploys w !! d) ->
  apps w' = <[id := Application.set_ActiveDeployID d app]> (apps w) ->
  deploys w' = deploys w ->
  store_consistent w'.
Proof.
  unfold store_consistent, well_keyed, pointers_live.
  intros [[Hka Hkd] Hlive] Hheld Hd -> ->. repeat split.
  - apply map_Forall_insert_2; [exact (Hka _ _ Hheld) | exact Hka].
  - exact Hkd.
  - apply map_Forall_insert_2; [right; exact Hd | exact Hlive].
Qed.

Lemma consistent_deploy_repoint (w w' : World) (id : UUID) (app : Application.t)
    (deploy : Deploy.t) :
  store_consistent w ->
  deploys w !! Deploy.ID deploy = None ->
  apps w !! id = Some app ->
  apps w' = <[id := Application.set_ActiveDeployID (Deploy.ID deploy) app]> (apps w) ->
  deploys w' = <[Deploy.ID deploy := deploy]> (deploys w) ->
  store_consistent w'.
Proof.
  intros Hc Hfree Hheld Ha Hd.
  eapply (consistent_repoint
            (set_deploys (<[Deploy.ID deploy := deploy]> (deploys w)) w));
    [| exact Hheld | | exact Ha | exact Hd].
  - eapply consistent_add_deploy; [exact Hc | exact Hfree | reflexivity | reflexivity].
  - cbn [deploys set_deploys]. rewrite lookup_insert_eq. eexists; reflexivity.
Qed.

(** In a well-keyed store the deploy found under an id carries that id. *)
Lemma consistent_deploy_held (w : World) (id : UUID) (deploy : Deploy.t) :
  store_consistent w -> deploys w !! id = Some deploy ->
  is_Some (deploys w !! Deploy.ID deploy).
Proof.
  intros [[_ Hkd] _] Hheld. rewrite (Hkd _ _ Hheld). eexists; exact Hheld.
Qed.

Lemma handler_consistent (lib : Lib) (route : Route) (r : Request) (w : World) :
  store_consistent w ->
  store_consistent (final (exec mem (handler_of lib route r) w)).
Proof.
  intros Hc.
  destruct route; cbn [handler_of];
    unfold handleCreateApp, handleGetApplication, handleCreateDeploy,
      handleCreateRollback;
    run_mem; at_end;
    first [ eapply consistent_frame; [exact Hc | reflexivity | reflexivity]
          | eapply consistent_add_app;
            [exact Hc | reflexivity | reflexivity | reflexivity | reflexivity]
          | eapply consistent_add_deploy; [exact Hc | eassumption | reflexivity | reflexivity]
          | eapply consistent_deploy_repoint;
            [exact Hc | eassumption | eassumption | reflexivity | reflexivity]
          | eapply consistent_repoint;
            [exact Hc | eassumption
             | eapply consistent_deploy_held; [exact Hc | eassumption]
             | reflexivity | reflexivity] ].
Qed.

(** X11: the handlers never leave a dangling pointer. If every record of
    the store is filed under its own id and every application points at
    no deploy or at a deploy the store holds, the same is true after any
    sequence of requests on the four routes, whatever their outcome. *)
Theorem serve_consistent (lib : Lib) (reqs : list (Route * Request)) (w : World) :
  store_consistent w -> store_consistent (serve lib reqs w).
Proof.
  revert w. induction reqs as [| [route r] rest IH]; intros w Hc; cbn [serve].
  - exact Hc.
  - apply IH, handler_consistent, Hc.
Qed.

Lemma sample_world_consistent (fs : list bool) : store_consistent (Double.world fs).
Proof.
  unfold store_consistent, well_keyed, pointers_live, Double.world; cbn [apps deploys].
  split; [split |].
  - do 2 (apply map_Forall_insert_2; [reflexivity |]). apply map_Forall_empty.
  - do 3 (apply map_Forall_insert_2; [reflexivity |]). apply map_Forall_empty.
  - do 2 (apply map_Forall_insert_2; [right; eexists; reflexivity |]).
    apply map_Forall_empty.
Qed.

(** The sample store after a deploy, a foreign rollback and a new application. *)
Lemma serve_consistent_witness :
  store_consistent
    (serve Double.lib
       [(PostDeploy, Double.request "1" [x14]);
        (PostRollback, Double.request "1" [x14]);
        (PostApplication, Double.request "0" (list_byte_of_string "gamma"))]
       (Double.world [])).
Proof.
  apply serve_consistent, sample_world_consistent.
Defined.

(** ** Runs that succeed, read backwards *)

Lemma create_app_ok (lib : Lib) (r : Request) (w : World) (app : Application.t) :
  answer (exec mem (handleCreateApp lib r) w)
    = {| StatusCode := StatusOK; Payload := JApplication app |} ->
  apps w !! Application.ID app = None
  /\ Application.ActiveDeployID app = uuid_Nil
  /\ apps (final (exec mem (handleCreateApp lib r) w))
     = <[Application.ID app := app]> (apps w)
  /\ deploys (final (exec mem (handleCreateApp lib r) w)) = deploys w
  /\ cache (final (exec mem (handleCreateApp lib r) w)) = cache w.
Proof.
  unfold handleCreateApp.
  run_mem; intros Hanswer; try (wrong_answer Hanswer);
    cbn [exec writeJSON after answer] in Hanswer; injection Hanswer as <-;
    at_end; repeat split; assumption.
Qed.

Lemma create_deploy_ok (lib : Lib) (r : Request) (w : World) (appID : UUID)
    (D : Deploy.t) :
  uuid_Parse lib (URLParam r "appID") = Ok appID ->
  answer (create_deploy lib r w) = {| StatusCode := StatusOK; Payload := JDeploy D |} ->
  exists app : Application.t,
    apps w !! appID = Some app
    /\ deploys w !! Deploy.ID D = None
    /\ Deploy.ApplicationID D = Application.ID app
    /\ apps (final (create_deploy lib r w))
       = <[appID := Application.set_ActiveDeployID (Deploy.ID D) app]> (apps w)
    /\ deploys (final (create_deploy lib r w)) = <[Deploy.ID D := D]> (deploys w)
    /\ cache (final (create_deploy lib r w)) = cache w.
Proof.
  intros Hparse. unfold create_deploy, handleCreateDeploy.
  run_mem; intros Hanswer; try (wrong_answer Hanswer);
    cbn [exec writeJSON after answer] in Hanswer; injection Hanswer as <-;
    at_end; eexists; repeat split; assumption.
Qed.

Lemma rollback_ok (lib : Lib) (r : Request) (w : World) (appID : UUID)
    (params : CreateRollbackParams.t) :
  uuid_Parse lib (URLParam r "appID") = Ok appID ->
  json_Decode_CreateRollbackParams lib (Body r) = Ok params ->
  StatusCode (answer (rollback lib r w)) = StatusOK ->
  exists (app : Application.t) (target : Deploy.t),
    apps w !! appID = Some app
    /\ deploys w !! CreateRollbackParams.DeployID params = Some target
    /\ answer (rollback lib r w)
       = {| StatusCode := StatusOK; Payload := JRollback (Deploy.ID target) |}
    /\ apps (final (rollback lib r w))
       = <[appID := Application.set_ActiveDeployID (Deploy.ID target) app]> (apps w)
    /\ deploys (final (rollback lib r w)) = deploys w
    /\ cache (final (rollback lib r w))
       = delete (Application.ActiveDeployID app) (cache w).
Proof.
  intros Hparse Hdecode. unfold rollback, handleCreateRollback.
  run_mem; intros Hstatus; try (wrong_answer Hstatus);
    at_end; eexists _, _; repeat split; assumption.
Qed.

Lemma repoint_back (app : Application.t) (d : UUID) :
  Application.set_ActiveDeployID (Application.ActiveDeployID app)
    (Application.set_ActiveDeployID d app) = app.
Proof. destruct app; reflexivity. Qed.

Lemma repoint_same (app : Application.t) :
  Application.set_ActiveDeployID (Application.ActiveDeployID app) app = app.
Proof. destruct app; reflexivity. Qed.

(** ** Requests one after the other *)

(** X12: an application that was just created can be read back. After
    [handleCreateApp] answered 200 with an application, a
    [handleGetApplication] for its id, if the store does not fail, answers
    200 with the very same record; the application has no active deploy. *)
Theorem create_app_then_get (lib : Lib) (r1 r2 : Request) (w : World)
    (app : Application.t) :
  answer (exec mem (handleCreateApp lib r1) w)
    = {| StatusCode := StatusOK; Payload := JApplication app |} ->
  uuid_Parse lib (URLParam r2 "appID") = Ok (Application.ID app) ->
  fault_at (final (exec mem (handleCreateApp lib r1) w)) 0 = false ->
  answer (exec mem (handleGetApplication lib r2)
            (final (exec mem (handleCreateApp lib r1) w)))
    = {| StatusCode := StatusOK; Payload := JApplication app |}
  /\ Application.ActiveDeployID app = uuid_Nil.
Proof.
  intros Hcreated Hparse Hfault.
  destruct (create_app_ok _ _ _ _ Hcreated) as (_ & Hnil & Happs & _ & _).
  split; [| exact Hnil].
  rewrite fault_at_0 in Hfault.
  assert (apps (final (exec mem (handleCreateApp lib r1) w)) !! Application.ID app
          = Some app) as Hheld
    by (rewrite Happs; apply lookup_insert_eq).
  remember (final (exec mem (handleCreateApp lib r1) w)) as w1 eqn:Hw1.
  clear Hw1 Happs Hcreated.
  unfold handleGetApplication. run_mem. reflexivity.
Qed.

(** Application "gamma" is created under the generated id 1000 and read back. *)
Lemma create_app_then_get_witness :
  answer (exec mem (handleGetApplication Double.lib (Double.request "1000" []))
            (final (exec mem (handleCreateApp Double.lib
                                (Double.request "0" (list_byte_of_string "gamma")))
                      (Double.world []))))
    = {| StatusCode := StatusOK;
         Payload := JApplication
                      (Application.mk 1000 "gamma" ∅ "http://localhost:5000/id" uuid_Nil) |}.
Proof.
  exact (proj1 (create_app_then_get Double.lib
                  (Double.request "0" (list_byte_of_string "gamma"))
                  (Double.request "1000" []) (Double.world [])
                  (Application.mk 1000 "gamma" ∅ "http://localhost:5000/id" uuid_Nil)
                  eq_refl eq_refl eq_refl)).
Defined.

(** X13: a rollback undoes a deploy. When an application points at a
    deploy of the store, a new deploy is created for it, and a rollback to
    the deploy it pointed at succeeds, the applications of the store are
    exactly what they were before the deploy; the new deploy is still in
    the store, and its cache entry is gone. *)
Theorem deploy_then_rollback_restores (lib : Lib) (r1 r2 : Request) (w : World)
    (appID : UUID) (app : Application.t) (previous D : Deploy.t) :
  uuid_Parse lib (URLParam r1 "appID") = Ok appID ->
  uuid_Parse lib (URLParam r2 "appID") = Ok appID ->
  apps w !! appID = Some app ->
  deploys w !! Application.ActiveDeployID app = Some previous ->
  Deploy.ID previous = Application.ActiveDeployID app ->
  answer (create_deploy lib r1 w) = {| StatusCode := StatusOK; Payload := JDeploy D |} ->
  json_Decode_CreateRollbackParams lib (Body r2)
    = Ok (CreateRollbackParams.mk (Application.ActiveDeployID app)) ->
  StatusCode (answer (rollback lib r2 (final (create_deploy lib r1 w)))) = StatusOK ->
  apps (final (rollback lib r2 (final (create_deploy lib r1 w)))) = apps w
  /\ deploys (final (rollback lib r2 (final (create_deploy lib r1 w)))) !! Deploy.ID D
     = Some D
  /\ cache (final (rollback lib r2 (final (create_deploy lib r1 w)))) !! Deploy.ID D
     = None
  /\ answer (rollback lib r2 (final (create_deploy lib r1 w)))
     = {| StatusCode := StatusOK;
          Payload := JRollback (Application.ActiveDeployID app) |}.
Proof.
  intros Hparse1 Hparse2 Hheld Hprev Hkey Hdeployed Hdecode Hrolled.
  destruct (create_deploy_ok _ _ _ _ _ Hparse1 Hdeployed)
    as (app0 & Hheld0 & Hfree & _ & Happs1 & Hdeploys1 & _).
  assert (app0 = app) as -> by congruence.
  destruct (rollback_ok _ _ _ _ _ Hparse2 Hdecode Hrolled)
    as (app1 & target & Hheld1 & Htarget & Hanswer & Happs2 & Hdeploys2 & Hcache2).
  cbn [CreateRollbackParams.DeployID] in Htarget.
  rewrite Happs1, lookup_insert_eq in Hheld1. injection Hheld1 as <-.
  assert (Deploy.ID D <> Application.ActiveDeployID app) as Hne by congruence.
  rewrite Hdeploys1, lookup_insert_ne in Htarget by exact Hne.
  assert (target = previous) as -> by congruence.
  rewrite Hkey in Happs2, Hanswer.
  repeat split.
  - rewrite Happs2, Happs1, insert_insert_eq, repoint_back. apply insert_id, Hheld.
  - rewrite Hdeploys2, Hdeploys1. apply lookup_insert_eq.
  - rewrite Hcache2. apply lookup_delete_eq.
  - exact Hanswer.
Qed.

(** Application 1 (active deploy 11) gets deploy 1000 and rolls back to 11. *)
Lemma deploy_then_rollback_restores_witness :
  apps (final (rollback Double.lib (Double.request "1" [x0b])
                 (final (create_deploy Double.lib (Double.request "1" [x14])
                           (Double.world [])))))
    = apps (Double.world [])
  /\ active_deploy (final (create_deploy Double.lib (Double.request "1" [x14])
                             (Double.world []))) 1
     = Some 1000.
Proof.
  split; [| reflexivity].
  exact (proj1 (deploy_then_rollback_restores Double.lib
                  (Double.request "1" [x14]) (Double.request "1" [x0b])
                  (Double.world []) 1 Double.appA Double.d11
                  (Deploy.mk 1000 1 [x14] 500)
                  eq_refl eq_refl eq_refl eq_refl eq_refl eq_refl eq_refl eq_refl)).
Defined.

(** X14: a rollback to the deploy that is already active changes nothing
    in the store but still evicts that deploy's cache entry: the entry of
    the deploy that stays active is gone afterwards. *)
Theorem rollback_to_active_deploy (lib : Lib) (r : Request) (w : World)
    (appID : UUID) (app : Application.t) (params : CreateRollbackParams.t)
    (target : Deploy.t) :
  uuid_Parse lib (URLParam r "appID") = Ok appID ->
  apps w !! appID = Some app ->
  json_Decode_CreateRollbackParams lib (Body r) = Ok params ->
  deploys w !! CreateRollbackParams.DeployID params = Some target ->
  Deploy.ID target = Application.ActiveDeployID app ->
  StatusCode (answer (rollback lib r w)) = StatusOK ->
  apps (final (rollback lib r w)) = apps w
  /\ deploys (final (rollback lib r w)) = deploys w
  /\ active_deploy (final (rollback lib r w)) appID
     = Some (Application.ActiveDeployID app)
  /\ cache (final (rollback lib r w)) !! Application.ActiveDeployID app = None.
Proof.
  intros Hparse Hheld Hdecode Htarget Hkey Hrolled.
  destruct (rollback_ok _ _ _ _ _ Hparse Hdecode Hrolled)
    as (app0 & target0 & Hheld0 & Htarget0 & _ & Happs & Hdeploys & Hcache).
  assert (app0 = app) as -> by congruence.
  assert (target0 = target) as -> by congruence.
  rewrite Hkey, repoint_same, (insert_id _ _ _ Hheld) in Happs.
  repeat split.
  - exact Happs.
  - exact Hdeploys.
  - unfold active_deploy. rewrite Happs, Hheld. reflexivity.
  - rewrite Hcache. apply lookup_delete_eq.
Qed.

(** Application 1 rolls back to deploy 11, which it already points at. *)
Lemma rollback_to_active_deploy_witness :
  cache (Double.world []) !! 11 = Some [xaa]
  /\ cache (final (rollback Double.lib (Double.request "1" [x0b]) (Double.world []))) !! 11
     = None
  /\ active_deploy (final (rollback Double.lib (Double.request "1" [x0b]) (Double.world []))) 1
     = Some 11.
Proof.
  pose proof (rollback_to_active_deploy Double.lib (Double.request "1" [x0b])
                (Double.world []) 1 Double.appA (CreateRollbackParams.mk 11)
                Double.d11 eq_refl eq_refl eq_refl eq_refl eq_refl eq_refl) as H.
  split; [reflexivity |].
  split; [exact (proj2 (proj2 (proj2 H))) | exact (proj1 (proj2 (proj2 H)))].
Defined.

(** X15: two deploys in a row. When two [handleCreateDeploy] requests for
    the same application both answer 200, the two deploys have different
    ids, both are in the store afterwards, each as it was answered, and
    the application points at the second. *)
Theorem two_deploys_in_a_row (lib : Lib) (r1 r2 : Request) (w : World)
    (appID : UUID) (D1 D2 : Deploy.t) :
  uuid_Parse lib (URLParam r1 "appID") = Ok appID ->
  uuid_Parse lib (URLParam r2 "appID") = Ok appID ->
  answer (create_deploy lib r1 w) = {| StatusCode := StatusOK; Payload := JDeploy D1 |} ->
  answer (create_deploy lib r2 (final (create_deploy lib r1 w)))
    = {| StatusCode := StatusOK; Payload := JDeploy D2 |} ->
  Deploy.ID D1 <> Deploy.ID D2
  /\ deploys (final (create_deploy lib r2 (final (create_deploy lib r1 w)))) !! Deploy.ID D1
     = Some D1
  /\ deploys (final (create_deploy lib r2 (final (create_deploy lib r1 w)))) !! Deploy.ID D2
     = Some D2
  /\ active_deploy (final (create_deploy lib r2 (final (create_deploy lib r1 w)))) appID
     = Some (Deploy.ID D2).
Proof.
  intros Hparse1 Hparse2 Hfirst Hsecond.
  destruct (create_deploy_ok _ _ _ _ _ Hparse1 Hfirst)
    as (app1 & _ & _ & _ & _ & Hdeploys1 & _).
  destruct (create_deploy_ok _ _ _ _ _ Hparse2 Hsecond)
    as (app2 & _ & Hfree2 & _ & Happs2 & Hdeploys2 & _).
  assert (Deploy.ID D1 <> Deploy.ID D2) as Hne.
  { intros Heq. rewrite Hdeploys1, <- Heq, lookup_insert_eq in Hfree2.
    discriminate Hfree2. }
  repeat split.
  - exact Hne.
  - rewrite Hdeploys2, lookup_insert_ne, Hdeploys1 by congruence.
    apply lookup_insert_eq.
  - rewrite Hdeploys2. apply lookup_insert_eq.
  - unfold active_deploy. rewrite Happs2, lookup_insert_eq. reflexivity.
Qed.

(** Two deploys for application 1: ids 1000 and 1001. *)
Lemma two_deploys_in_a_row_witness :
  deploys (final (create_deploy Double.lib (Double.request "1" [x15])
                    (final (create_deploy Double.lib (Double.request "1" [x14])
                              (Double.world []))))) !! 1000
    = Some (Deploy.mk 1000 1 [x14] 500)
  /\ active_deploy (final (create_deploy Double.lib (Double.request "1" [x15])
                             (final (create_deploy Double.lib (Double.request "1" [x14])
                                       (Double.world []))))) 1
     = Some 1001.
Proof.
  pose proof (two_deploys_in_a_row Double.lib (Double.request "1" [x14])
                (Double.request "1" [x15]) (Double.world []) 1
                (Deploy.mk 1000 1 [x14] 500) (Deploy.mk 1001 1 [x15] 500)
                eq_refl eq_refl eq_refl eq_refl) as H.
  split; [exact (proj1 (proj2 H)) | exact (proj2 (proj2 (proj2 H)))].
Defined.

(** X16: the first deploy of a new application. After [handleCreateApp]
    answered 200 with an application and [handleCreateDeploy] for its id
    answered 200 with a deploy, the deploy is bound to that application
    and the store holds the application as it was answered, now pointing
    at the deploy. *)
Theorem first_deploy_of_new_app (lib : Lib) (r1 r2 : Request) (w : World)
    (app : Application.t) (D : Deploy.t) :
  answer (exec mem (handleCreateApp lib r1) w)
    = {| StatusCode := StatusOK; Payload := JApplication app |} ->
  uuid_Parse lib (URLParam r2 "appID") = Ok (Application.ID app) ->
  answer (create_deploy lib r2 (final (exec mem (handleCreateApp lib r1) w)))
    = {| StatusCode := StatusOK; Payload := JDeploy D |} ->
  Deploy.ApplicationID D = Application.ID app
  /\ apps (final (create_deploy lib r2 (final (exec mem (handleCreateApp lib r1) w))))
       !! Application.ID app
     = Some (Application.set_ActiveDeployID (Deploy.ID D) app)
  /\ deploys (final (create_deploy lib r2 (final (exec mem (handleCreateApp lib r1) w))))
       !! Deploy.ID D
     = Some D.
Proof.
  intros Hcreated Hparse Hdeployed.
  destruct (create_app_ok _ _ _ _ Hcreated) as (_ & _ & Happs1 & _ & _).
  destruct (create_deploy_ok _ _ _ _ _ Hparse Hdeployed)
    as (app0 & Hheld & _ & Hbound & Happs2 & Hdeploys2 & _).
  rewrite Happs1, lookup_insert_eq in Hheld. injection Hheld as <-.
  repeat split.
  - exact Hbound.
  - rewrite Happs2. apply lookup_insert_eq.
  - rewrite Hdeploys2. apply lookup_insert_eq.
Qed.

(** Application "gamma" gets id 1000 and its first deploy id 1001. *)
Lemma first_deploy_of_new_app_witness :
  apps (final (create_deploy Double.lib (Double.request "1000" [x14])
                 (final (exec mem (handleCreateApp Double.lib
                                     (Double.request "0" (list_byte_of_string "gamma")))
                           (Double.world []))))) !! 1000
    = Some (Application.mk 1000 "gamma" ∅ "http://localhost:5000/id" 1001).
Proof.
  exact (proj1 (proj2 (first_deploy_of_new_app Double.lib
                         (Double.request "0" (list_byte_of_string "gamma"))
                         (Double.request "1000" [x14]) (Double.world [])
                         (Application.mk 1000 "gamma" ∅ "http://localhost:5000/id" uuid_Nil)
                         (Deploy.mk 1001 1000 [x14] 500)
                         eq_refl eq_refl eq_refl))).
Defined.

(** ** What a single request leaves alone *)

(** X17: [handleGetApplication] only reads. Whatever the request and the
    state of the store, it makes at most one call, and the applications,
    the deploys and the cache are afterwards what they were. *)
Theorem get_application_only_reads (lib : Lib) (r : Request) (w : World) :
  apps (final (exec mem (handleGetApplication lib r) w)) = apps w
  /\ deploys (final (exec mem (handleGetApplication lib r) w)) = deploys w
  /\ cache (final (exec mem (handleGetApplication lib r) w)) = cache w
  /\ (length (trace (exec mem (handleGetApplication lib r) w)) <= 1)%nat.
Proof.
  unfold handleGetApplication.
  run_mem; at_end; cbn [length]; repeat split; lia.
Qed.

(** X18: [handleCreateApp] never overwrites. Whatever the request and the
    state of the store, every application the store held is afterwards
    held unchanged, also when the generated id is already taken; deploys
    and cache are what they were. *)
Theorem create_app_never_overwrites (lib : Lib) (r : Request) (w : World) :
  apps w ⊆ apps (final (exec mem (handleCreateApp lib r) w))
  /\ deploys (final (exec mem (handleCreateApp lib r) w)) = deploys w
  /\ cache (final (exec mem (handleCreateApp lib r) w)) = cache w.
Proof.
  unfold handleCreateApp.
  run_mem; at_end; repeat split;
    first [ reflexivity | apply insert_subseteq; assumption ].
Qed.

(** X19: [handleCreateRollback] creates nothing and deletes nothing in
    the store. Whatever the request and the state of the store, the
    deploys are afterwards what they were and the store holds
    applications under the same ids as before. *)
Theorem rollback_creates_nothing (lib : Lib) (r : Request) (w : World) :
  deploys (final (rollback lib r w)) = deploys w
  /\ dom (apps (final (rollback lib r w))) = dom (apps w).
Proof.
  unfold rollback, handleCreateRollback.
  run_mem; at_end; split;
    first [ reflexivity | apply dom_insert_lookup_L; eexists; eassumption ].
Qed.

(** X20: a deploy or a rollback for one application leaves every other
    application alone: whatever the outcome, the store holds under any
    other id what it held before. *)
Theorem other_applications_untouched (lib : Lib) (r : Request) (w : World)
    (appID other : UUID) :
  uuid_Parse lib (URLParam r "appID") = Ok appID ->
  other <> appID ->
  apps (final (create_deploy lib r w)) !! other = apps w !! other
  /\ apps (final (rollback lib r w)) !! other = apps w !! other.
Proof.
  intros Hparse Hother.
  unfold create_deploy, rollback, handleCreateDeploy, handleCreateRollback.
  split; run_mem; at_end;
    first [ reflexivity | apply lookup_insert_ne; congruence ].
Qed.

(** Application 2 while application 1 rolls back to deploy 20. *)
Lemma other_applications_untouched_witness :
  apps (final (rollback Double.lib (Double.request "1" [x14]) (Double.world []))) !! 2
    = Some Double.appB.
Proof.
  assert ((2 : N) <> 1) as Hne by discriminate.
  rewrite (proj2 (other_applications_untouched Double.lib (Double.request "1" [x14])
                    (Double.world []) 1 2 eq_refl Hne)).
  reflexivity.
Defined.

(** X21: a rollback evicts at most the cache entry of the deploy that was
    active when it started: whatever the outcome, every other entry of the
    cache is what it was. *)
Theorem rollback_spares_other_entries (lib : Lib) (r : Request) (w : World)
    (appID : UUID) (app : Application.t) (key : UUID) :
  uuid_Parse lib (URLParam r "appID") = Ok appID ->
  apps w !! appID = Some app ->
  key <> Application.ActiveDeployID app ->
  cache (final (rollback lib r w)) !! key = cache w !! key.
Proof.
  intros Hparse Hheld Hkey.
  unfold rollback, handleCreateRollback.
  run_mem; at_end;
    first [ reflexivity | apply lookup_delete_ne; congruence ].
Qed.

(** The entry of deploy 20 while application 1 leaves deploy 11 for 10. *)
Lemma rollback_spares_other_entries_witness :
  cache (final (rollback Double.lib (Double.request "1" [x0a]) (Double.world []))) !! 20
    = Some [xbb].
Proof.
  assert ((20 : N) <> Application.ActiveDeployID Double.appA) as Hne by discriminate.
  rewrite (rollback_spares_other_entries Double.lib (Double.request "1" [x0a])
             (Double.world []) 1 Double.appA 20 eq_refl eq_refl Hne).
  reflexivity.
Defined.

(** X22: a rollback whose body cannot be decoded changes nothing: with
    the application found, [handleCreateRollback] answers 400 with the
    decoder's error after the one lookup, and store and cache are what
    they were. *)
Theorem rollback_undecodable_body (lib : Lib) (r : Request) (w : World)
    (appID : UUID) (app : Application.t) (err : error) :
  uuid_Parse lib (URLParam r "appID") = Ok appID ->
  apps w !! appID = Some app ->
  fault_at w 0 = false ->
  json_Decode_CreateRollbackParams lib (Body r) = Err err ->
  answer (rollback lib r w)
    = {| StatusCode := StatusBadRequest; Payload := ErrorResponse err |}
  /\ trace (rollback lib r w) = [EvGetApplication appID (Ok app)]
  /\ apps (final (rollback lib r w)) = apps w
  /\ deploys (final (rollback lib r w)) = deploys w
  /\ cache (final (rollback lib r w)) = cache w.
Proof.
  intros Hparse Hheld Hfault Hdecode.
  rewrite fault_at_0 in Hfault.
  unfold rollback, handleCreateRollback.
  run_mem; at_end; repeat split.
Qed.

(** Application 1 sends a rollback whose body breaks off. *)
Lemma rollback_undecodable_body_witness :
  answer (rollback Double.lib (Double.broken_request "1") (Double.world []))
    = {| StatusCode := StatusBadRequest;
         Payload := ErrorResponse (errors_New "unexpected EOF") |}.
Proof.
  exact (proj1 (rollback_undecodable_body Double.lib (Double.broken_request "1")
                  (Double.world []) 1 Double.appA (errors_New "unexpected EOF")
                  eq_refl eq_refl eq_refl eq_refl)).
Defined.

(** ** Ownership of the active deploy *)

Lemma owned_frame (w w' : World) :
  pointers_owned w -> apps w' = apps w -> deploys w' = deploys w ->
  pointers_owned w'.
Proof. unfold pointers_owned. intros Ho -> ->. exact Ho. Qed.

Lemma owned_add_app (w w' : World) (id : UUID) (app : Application.t) :
  pointers_owned w ->
  apps w' = <[id := app]> (apps w) ->
  deploys w' = deploys w ->
  Application.ActiveDeployID app = uuid_Nil ->
  pointers_owned w'.
Proof.
  unfold pointers_owned. intros Ho -> -> Hnil.
  apply map_Forall_insert_2; [| exact Ho].
  intros Hset. contradiction.
Qed.

(** A deploy under a fresh id is not what any live pointer points at. *)
Lemma owned_fresh_deploy (ds : gmap N Deploy.t) (deploy : Deploy.t)
    (app : Application.t) :
  ds !! Deploy.ID deploy = None ->
  live ds app -> owned ds app ->
  owned (<[Deploy.ID deploy := deploy]> ds) app.
Proof.
  intros Hfree Hlive Howned Hset held Hheld.
  destruct Hlive as [Hnil | [d Hd]]; [contradiction |].
  rewrite lookup_insert_ne in Hheld by congruence.
  apply Howned; assumption.
Qed.

Lemma owned_add_deploy (w w' : World) (deploy : Deploy.t) :
  pointers_live w -> pointers_owned w ->
  deploys w !! Deploy.ID deploy = None ->
  apps w' = apps w ->
  deploys w' = <[Deploy.ID deploy := deploy]> (deploys w) ->
  pointers_owned w'.
Proof.
  unfold pointers_live, pointers_owned. intros Hl Ho Hfree -> ->.
  intros id app Hheld.
  apply owned_fresh_deploy; [exact Hfree | exact (Hl _ _ Hheld) | exact (Ho _ _ Hheld)].
Qed.

Lemma owned_deploy_repoint (w w' : World) (id : UUID) (app : Application.t)
    (deploy : Deploy.t) :
  pointers_live w -> pointers_owned w ->
  deploys w !! Deploy.ID deploy = None ->
  Deploy.ApplicationID deploy = Application.ID app ->
  apps w' = <[id := Application.set_ActiveDeployID (Deploy.ID deploy) app]> (apps w) ->
  deploys w' = <[Deploy.ID deploy := deploy]> (deploys w) ->
  pointers_owned w'.
Proof.
  unfold pointers_live, pointers_owned. intros Hl Ho Hfree Hbound -> ->.
  apply map_Forall_insert_2.
  - intros _ held Hheld. cbn [Application.set_ActiveDeployID Application.ActiveDeployID] in Hheld.
    rewrite lookup_insert_eq in Hheld. injection Hheld as <-. exact Hbound.
  - intros id0 app0 Hheld0.
    apply owned_fresh_deploy; [exact Hfree | exact (Hl _ _ Hheld0) | exact (Ho _ _ Hheld0)].
Qed.

Lemma handler_owned (lib : Lib) (route : Route) (r : Request) (w : World) :
  is_rollback route = false ->
  pointers_live w -> pointers_owned w ->
  pointers_owned (final (exec mem (handler_of lib route r) w)).
Proof.
  intros Hroute Hl Ho.
  destruct route; try discriminate Hroute; cbn [handler_of];
    unfold handleCreateApp, handleGetApplication, handleCreateDeploy;
    run_mem; at_end;
    first [ eapply owned_frame; [exact Ho | reflexivity | reflexivity]
          | eapply owned_add_app; [exact Ho | reflexivity | reflexivity | reflexivity]
          | eapply owned_add_deploy;
            [exact Hl | exact Ho | eassumption | reflexivity | reflexivity]
          | eapply owned_deploy_repoint;
            [exact Hl | exact Ho | eassumption | | reflexivity | reflexivity];
            reflexivity ].
Qed.

(** X23: only a rollback can make an application point at another
    application's deploy. In a consistent store where every active deploy
    is bound to the application that points at it, the same holds after
    any sequence of requests on the routes other than the rollback route. *)
Theorem serve_without_rollback_keeps_ownership (lib : Lib)
    (reqs : list (Route * Request)) (w : World) :
  forallb (fun req => negb (is_rollback req.1)) reqs = true ->
  store_consistent w -> pointers_owned w ->
  pointers_owned (serve lib reqs w).
Proof.
  revert w. induction reqs as [| [route r] rest IH]; intros w Hroutes Hc Ho;
    cbn [serve].
  - exact Ho.
  - cbn [forallb fst] in Hroutes. apply andb_prop in Hroutes as [Hroute Hrest].
    apply negb_true_iff in Hroute.
    apply IH; [exact Hrest | apply handler_consistent, Hc |].
    apply handler_owned; [exact Hroute | exact (proj2 Hc) | exact Ho].
Qed.

Lemma sample_world_owned (fs : list bool) : pointers_owned (Double.world fs).
Proof.
  unfold pointers_owned, Double.world; cbn [apps deploys].
  do 2 (apply map_Forall_insert_2;
        [intros _ held Hheld; vm_compute in Hheld; injection Hheld as <-; reflexivity |]).
  apply map_Forall_empty.
Qed.

(** The sample store after two deploys and a new application. *)
Lemma serve_without_rollback_keeps_ownership_witness :
  pointers_owned
    (serve Double.lib
       [(PostDeploy, Double.request "1" [x14]);
        (PostApplication, Double.request "0" (list_byte_of_string "gamma"));
        (PostDeploy, Double.request "2" [x15])]
       (Double.world [])).
Proof.
  apply serve_without_rollback_keeps_ownership;
    [reflexivity | apply sample_world_consistent | apply sample_world_owned].
Defined.
